(** * tpotbench: enumeration of benchmark jobs from a configuration

    A shallow embedding of [benchmark.py] and [bench_config.py].

    Python integers are [Z], strings are [string], lists are [list], the
    dictionaries indexed by strings are [gmap string _], the set of
    baseline times is a [gset Z].  A Python exception is a value of [exn];
    constructing a job allocates a new object, which is modelled by a counter
    of object identities threaded through every method. *)

From Stdlib Require Import ZArith Lia PrimFloat.
From stdpp Require Import base gmap strings list pretty.

Local Open Scope string_scope.
Local Open Scope Z_scope.
Local Open Scope list_scope.

(** ** Exceptions, object identities and the monad of method bodies *)

(** The two exception classes the enumeration can raise: a dictionary
    indexed by a key it does not hold, and [Random.sample] called with a
    sample size out of range. *)
Inductive exn : Type :=
| KeyError (key : string)
| ValueError (msg : string).

Inductive result (A : Type) : Type :=
| Ok (a : A)
| Raise (e : exn).
Arguments Ok {A} a.
Arguments Raise {A} e.

(** The next unused object identity. *)
Definition heap : Type := nat.

Definition M (A : Type) : Type := heap -> result (A * heap).

Definition ret {A} (a : A) : M A := fun h => Ok (a, h).

Definition bind {A B} (m : M A) (k : A -> M B) : M B :=
  fun h => match m h with
           | Ok (a, h') => k a h'
           | Raise e => Raise e
           end.

Definition raise {A} (e : exn) : M A := fun _ => Raise e.

(** The identity of a newly constructed object. *)
Definition fresh : M nat := fun h => Ok (h, S h).

Notation "x <- m ;; k" := (bind m (fun x => k))
  (at level 20, m at level 99, k at level 200, only parsing).
Notation "' pat <- m ;; k" := (bind m (fun x => match x with pat => k end))
  (at level 20, pat pattern, m at level 99, k at level 200, only parsing).

(** [d[k]] on a dictionary with string keys. *)
Definition getitem {V} (d : gmap string V) (k : string) : M V :=
  match d !! k with
  | Some v => ret v
  | None => raise (KeyError k)
  end.

(** [d[k]] on a dictionary read as a record of optional entries. *)
Definition getfield {V} (entry : option V) (k : string) : M V :=
  match entry with
  | Some v => ret v
  | None => raise (KeyError k)
  end.

(** A list comprehension whose element expression has effects. *)
Fixpoint mapM {A B} (f : A -> M B) (l : list A) : M (list B) :=
  match l with
  | [] => ret []
  | x :: l' => y <- f x ;; ys <- mapM f l' ;; ret (y :: ys)
  end.

(** A [for] loop over [l] that updates the local variable [acc]. *)
Fixpoint for_each {A S} (l : list A) (body : S -> A -> M S) (acc : S) : M S :=
  match l with
  | [] => ret acc
  | x :: l' => acc' <- body acc x ;; for_each l' body acc'
  end.

(** ** [itertools.product] and [range] *)

(** [product] builds its result pool by pool, left to right:
    [result = [x+[y] for x in result for y in pool]]. *)
Definition product2 {A B} (xs : list A) (ys : list B) : list (A * B) :=
  flat_map (fun x => map (fun y => (x, y)) ys) xs.

Definition product3 {A B C} (xs : list A) (ys : list B) (zs : list C)
  : list (A * B * C) :=
  flat_map (fun p => map (fun z => (p, z)) zs) (product2 xs ys).

Definition product4 {A B C D} (xs : list A) (ys : list B) (zs : list C)
    (ws : list D) : list (A * B * C * D) :=
  flat_map (fun p => map (fun w => (p, w)) ws) (product3 xs ys zs).

(** [range(lo, hi)]. *)
Definition range (lo hi : Z) : list Z :=
  map (fun k => lo + Z.of_nat k) (seq 0 (Z.to_nat (hi - lo))).

(** ** External collaborators *)

(** The functions of [os.path] used to locate the benchmark and the
    runners, and the path of the module ([__file__]). *)
Class OsPath : Type := {
  os_path_abspath : string -> string;
  os_path_join : string -> string -> string;
  os_path_dirname : string -> string;
  os_path_realpath : string -> string;
  file__ : string
}.

(** [random.Random]: a generator is created from an integer seed, and
    [sample] draws [k] elements of a population, leaving the generator in a
    new state or raising [ValueError]. *)
Class PRNG : Type := {
  rng : Type;
  Random : Z -> rng;
  sample : rng -> list string -> Z -> result (list string * rng)
}.

(** What the documentation of [Random.sample] promises: the sample size
    must lie between 0 and the population size, and the sample then holds
    that many elements, taken from distinct positions of the population
    ([l ⊆+ pop]: some permutation of [pop] has [l] as a sublist). *)
Class PRNGLaws (P : PRNG) : Prop := {
  sample_out_of_range : forall g pop k,
    k < 0 \/ Z.of_nat (length pop) < k ->
    exists msg, sample g pop k = Raise (ValueError msg);
  sample_in_range : forall g pop k,
    0 <= k <= Z.of_nat (length pop) ->
    exists l g', sample g pop k = Ok (l, g')
      /\ Z.of_nat (length l) = k
      /\ l ⊆+ pop
}.

(** ** The configuration ([bench_config.py]) *)

Definition split : Type := float * float * float.

(** An entry of [config['selectors']]: a dictionary whose keys, when
    present, hold values of the types used in [default_config]. *)
Record selector_config : Type := {
  sc_name : option string;
  sc_type : option string;
  sc_n : option Z;
  sc_selection_seeds : option (list Z)
}.

Record BenchmarkConfig : Type := {
  id_ : string;
  dir : string;
  username : string;
  seeds : list Z;
  times_in_mins : list Z;
  openml_tasks : list Z;
  data_splits : list split;
  algorithms : list string;
  selectors : list selector_config;
  baselines : gmap string Z
}.

#[warnings="-inexact-float"]
Definition default_config : BenchmarkConfig := {|
  id_ := "tpot_bench";
  username := "eb130475";
  dir := "./data";
  seeds := [5];
  openml_tasks := [3; 6; 11; 12; 14; 15; 16; 18; 22; 23];
  times_in_mins := [30; 60; 90; 120; 150; 180; 210; 240; 270; 300; 330; 360];
  data_splits := [(0.5, 0.3, 0.2)%float];
  algorithms := ["NB"; "TR"; "KNN"; "MLP"; "LR"; "XGB"; "SVM"; "SGD"];
  selectors := [
    {| sc_name := Some "ALL"; sc_type := Some "all";
       sc_n := None; sc_selection_seeds := None |};
    {| sc_name := Some "TOP3"; sc_type := Some "top_n";
       sc_n := Some 3; sc_selection_seeds := None |};
    {| sc_name := Some "TOP4"; sc_type := Some "top_n";
       sc_n := Some 4; sc_selection_seeds := None |};
    {| sc_name := Some "TOP5"; sc_type := Some "top_n";
       sc_n := Some 5; sc_selection_seeds := None |};
    {| sc_name := Some "LO3"; sc_type := Some "n_least_overlapping";
       sc_n := Some 3; sc_selection_seeds := None |};
    {| sc_name := Some "LO4"; sc_type := Some "n_least_overlapping";
       sc_n := Some 4; sc_selection_seeds := None |};
    {| sc_name := Some "LO5"; sc_type := Some "n_least_overlapping";
       sc_n := Some 5; sc_selection_seeds := None |};
    {| sc_name := Some "MC3"; sc_type := Some "n_most_coverage";
       sc_n := Some 3; sc_selection_seeds := None |};
    {| sc_name := Some "MC4"; sc_type := Some "n_most_coverage";
       sc_n := Some 4; sc_selection_seeds := None |};
    {| sc_name := Some "MC5"; sc_type := Some "n_most_coverage";
       sc_n := Some 5; sc_selection_seeds := None |};
    {| sc_name := Some "RAN3"; sc_type := Some "n_random_selection";
       sc_n := Some 3; sc_selection_seeds := Some [1; 2; 3] |};
    {| sc_name := Some "RAN4"; sc_type := Some "n_random_selection";
       sc_n := Some 4; sc_selection_seeds := Some [1; 2; 3] |};
    {| sc_name := Some "RAN5"; sc_type := Some "n_random_selection";
       sc_n := Some 5; sc_selection_seeds := Some [1; 2; 3] |}
  ];
  baselines := {[ "scale" := 8 ]}
|}.

(** ** Jobs *)

Record SlurmEnvironment : Type := { env_username : string }.

(** Modelled from the spec: [jobs.py] is not part of the sources.  A job
    is the tuple of arguments its constructor receives, together with the
    identity of the object the constructor call allocates. *)
Record SingleAlgorithmJob : Type := {
  saj_oid : nat;
  saj_env : SlurmEnvironment;
  saj_seed : Z;
  saj_times : list Z;
  saj_task : Z;
  saj_root : string;
  saj_split : split;
  saj_algo : string;
  saj_runner : string
}.

Record BaselineJob : Type := {
  bj_oid : nat;
  bj_env : SlurmEnvironment;
  bj_seed : Z;
  bj_times : list Z;
  bj_task : Z;
  bj_root : string;
  bj_split : split;
  bj_runner : string
}.

Record SelectorJob : Type := {
  sj_oid : nat;
  sj_env : SlurmEnvironment;
  sj_seed : Z;
  sj_times : list Z;
  sj_task : Z;
  sj_root : string;
  sj_split : split;
  sj_runner : string;
  sj_name : string;
  sj_algorithm_jobs : list SingleAlgorithmJob
}.

Inductive TPOTJob : Type :=
| Algorithm (job : SingleAlgorithmJob)
| Selector (job : SelectorJob)
| Baseline (job : BaselineJob).

(** The constructor calls [SingleAlgorithmJob(...)], [BaselineJob(...)] and
    [SelectorJob(...)]. *)
Definition new_SingleAlgorithmJob (env : SlurmEnvironment) (seed : Z)
    (times : list Z) (task : Z) (root : string) (split : split)
    (algo runner : string) : M SingleAlgorithmJob :=
  oid <- fresh ;;
  ret {| saj_oid := oid; saj_env := env; saj_seed := seed; saj_times := times;
         saj_task := task; saj_root := root; saj_split := split;
         saj_algo := algo; saj_runner := runner |}.

Definition new_BaselineJob (env : SlurmEnvironment) (seed : Z)
    (times : list Z) (task : Z) (root : string) (split : split)
    (runner : string) : M BaselineJob :=
  oid <- fresh ;;
  ret {| bj_oid := oid; bj_env := env; bj_seed := seed; bj_times := times;
         bj_task := task; bj_root := root; bj_split := split;
         bj_runner := runner |}.

Definition new_SelectorJob (env : SlurmEnvironment) (seed : Z)
    (times : list Z) (task : Z) (root : string) (split : split)
    (runner name : string) (algorithm_jobs : list SingleAlgorithmJob)
    : M SelectorJob :=
  oid <- fresh ;;
  ret {| sj_oid := oid; sj_env := env; sj_seed := seed; sj_times := times;
         sj_task := task; sj_root := root; sj_split := split;
         sj_runner := runner; sj_name := name;
         sj_algorithm_jobs := algorithm_jobs |}.

(** The lifecycle queries of a job, answered by the execution backend. *)
Class Lifecycle : Type := {
  ready : TPOTJob -> bool;
  failed : TPOTJob -> bool;
  blocked : TPOTJob -> bool;
  pending : TPOTJob -> bool;
  running : TPOTJob -> bool;
  complete : TPOTJob -> bool;
  in_progress : TPOTJob -> bool
}.

(** [rand.sample(population, k)] as a statement of a method body: the
    generator object keeps its new state to itself. *)
Definition rand_sample `{PRNG} (rand : rng) (population : list string)
    (k : Z) : M (list string) :=
  fun h => match sample rand population k with
           | Ok (l, _) => Ok (l, h)
           | Raise e => Raise e
           end.

(** ** The class [Benchmark] ([benchmark.py]) *)

Record Benchmark : Type := {
  env : SlurmEnvironment;
  config : BenchmarkConfig;
  folders : gmap string string
}.

Section Benchmark.
Context `{OsPath} `{PRNG} `{Lifecycle}.

Definition cdir : string :=
  os_path_abspath (os_path_dirname (os_path_realpath file__)).
Definition runner_dir : string := os_path_join cdir "runners".
Definition single_algorithm_runner : string :=
  os_path_join runner_dir "single_algorithm_runner.py".
Definition baseline_runner : string :=
  os_path_join runner_dir "baseline_runner.py".
Definition selector_runner : string :=
  os_path_join runner_dir "selector_runner.py".

Definition job_filters : gmap string (TPOTJob -> bool) :=
  <["in_progress" := fun job => in_progress job]>
  (<["complete" := fun job => complete job]>
  (<["running" := fun job => running job]>
  (<["pending" := fun job => pending job]>
  (<["blocked" := fun job => blocked job]>
  (<["failed" := fun job => failed job]>
  (<["ready" := fun job => ready job]> ∅)))))).

(** [Benchmark.__init__]. *)
Definition Benchmark_init (config : option BenchmarkConfig) : Benchmark :=
  let config := match config with
                | None => default_config
                | Some config => config
                end in
  {| env := {| env_username := username config |};
     config := config;
     folders :=
       {[ "root" := os_path_abspath (os_path_join (dir config) (id_ config)) ]}
  |}.

Definition algorithm_jobs (self : Benchmark) : M (list SingleAlgorithmJob) :=
  let config := config self in
  root <- getitem (folders self) "root" ;;
  let seeds := seeds config in
  let times := times_in_mins config in
  let tasks := openml_tasks config in
  let splits := data_splits config in
  let algorithms := algorithms config in
  mapM (fun '(seed, task, split, algo) =>
          new_SingleAlgorithmJob (env self) seed times task root split algo
                                 single_algorithm_runner)
       (product4 seeds tasks splits algorithms).

Definition baseline_jobs (self : Benchmark) : M (list BaselineJob) :=
  let config := config self in
  root <- getitem (folders self) "root" ;;
  let seeds := seeds config in
  let times := times_in_mins config in
  let tasks := openml_tasks config in
  let splits := data_splits config in
  scale <- getitem (baselines config) "scale" ;;
  let baseline_times : gset Z :=
    fold_left (fun baseline_times i =>
                 let scaled_times : gset Z :=
                   list_to_set (map (fun x => x * i) times) in
                 baseline_times ∪ scaled_times)
              (range 1 (scale + 1)) ∅ in
  mapM (fun '(seed, task, split) =>
          new_BaselineJob (env self) seed (elements baseline_times) task root
                          split baseline_runner)
       (product3 seeds tasks splits).

Definition selector_jobs_all (self : Benchmark)
    (selector_config : selector_config) : M (list SelectorJob) :=
  let config := config self in
  root <- getitem (folders self) "root" ;;
  let seeds := seeds config in
  let times := times_in_mins config in
  let tasks := openml_tasks config in
  let splits := data_splits config in
  let algorithms := algorithms config in
  selector_name <- getfield (sc_name selector_config) "name" ;;
  for_each (product3 seeds tasks splits)
    (fun jobs '(seed, task, split) =>
       algorithm_jobs <-
         mapM (fun algo =>
                 new_SingleAlgorithmJob (env self) seed times task root split
                                        algo single_algorithm_runner)
              algorithms ;;
       selector_job <-
         new_SelectorJob (env self) seed times task root split
                         selector_runner selector_name algorithm_jobs ;;
       ret (jobs ++ [selector_job]))
    [].

Definition selector_jobs_n_top (self : Benchmark)
    (selector_config : selector_config) : M (list SelectorJob) :=
  ret [].

Definition selector_jobs_n_least_overlapping (self : Benchmark)
    (selector_config : selector_config) : M (list SelectorJob) :=
  ret [].

Definition selector_jobs_n_most_coverage (self : Benchmark)
    (selector_config : selector_config) : M (list SelectorJob) :=
  ret [].

Definition selector_jobs_n_random (self : Benchmark)
    (selector_config : selector_config) : M (list SelectorJob) :=
  let config := config self in
  root <- getitem (folders self) "root" ;;
  let seeds := seeds config in
  let times := times_in_mins config in
  let tasks := openml_tasks config in
  let splits := data_splits config in
  let algorithms := algorithms config in
  n_algorithms <- getfield (sc_n selector_config) "n" ;;
  selection_seeds <-
    getfield (sc_selection_seeds selector_config) "selection_seeds" ;;
  selector_names <-
    mapM (fun selection_seed : Z =>
            name <- getfield (sc_name selector_config) "name" ;;
            ret (name +:+ "_" +:+ pretty selection_seed))
         selection_seeds ;;
  for_each (zip selection_seeds selector_names)
    (fun jobs '(selection_seed, name) =>
       let rand := Random (selection_seed * n_algorithms) in
       random_algorithms <- rand_sample rand algorithms n_algorithms ;;
       for_each (product3 seeds tasks splits)
         (fun jobs '(seed, task, split) =>
            algorithm_jobs <-
              mapM (fun algo =>
                      new_SingleAlgorithmJob (env self) seed times task root
                                             split algo
                                             single_algorithm_runner)
                   random_algorithms ;;
            selector_job <-
              new_SelectorJob (env self) seed times task root split
                              selector_runner name algorithm_jobs ;;
            ret (jobs ++ [selector_job]))
         jobs)
    [].

(** The dictionary [functions] of [selector_jobs]. *)
Definition functions (self : Benchmark)
  : gmap string (selector_config -> M (list SelectorJob)) :=
  <["n_least_overlapping" := selector_jobs_n_least_overlapping self]>
  (<["n_random_selection" := selector_jobs_n_random self]>
  (<["n_most_coverage" := selector_jobs_n_most_coverage self]>
  (<["top_n" := selector_jobs_n_top self]>
  (<["all" := selector_jobs_all self]> ∅)))).

Definition selector_jobs (self : Benchmark) : M (list SelectorJob) :=
  let functions := functions self in
  for_each (selectors (config self))
    (fun jobs selector_config =>
       selector_type <- getfield (sc_type selector_config) "type" ;;
       get_selector <- getitem functions selector_type ;;
       selected <- get_selector selector_config ;;
       ret (jobs ++ selected))
    [].

(** [if filter_by:] holds for a string other than the empty one. *)
Definition jobs (self : Benchmark) (filter_by : option string)
  : M (list TPOTJob) :=
  algorithm_jobs_ <- algorithm_jobs self ;;
  selector_jobs_ <- selector_jobs self ;;
  baseline_jobs_ <- baseline_jobs self ;;
  let job_iter :=
    map Algorithm algorithm_jobs_ ++ map Selector selector_jobs_
      ++ map Baseline baseline_jobs_ in
  match filter_by with
  | Some name =>
      if negb (String.eqb name "") then
        job_filter <- getitem job_filters name ;;
        ret (List.filter job_filter job_iter)
      else ret job_iter
  | None => ret job_iter
  end.

End Benchmark.

(** ** Stand-ins for the collaborators, to run the methods on examples *)

(** Paths are joined with a slash and are already absolute. *)
Definition posix_paths : OsPath := {|
  os_path_abspath := fun p => p;
  os_path_join := fun a b => a +:+ "/" +:+ b;
  os_path_dirname := fun p => p;
  os_path_realpath := fun p => p;
  file__ := "/opt/tpotbench"
|}.

(** A linear congruential generator.  It is not the generator of
    [random.Random]; it draws without replacement and checks the sample size
    the way [Random.sample] documents. *)
Definition lcg_next (g : Z) : Z := (1103515245 * g + 12345) mod 2147483648.

Fixpoint lcg_draw (k : nat) (g : Z) (pool : list string)
  : list string * Z :=
  match k with
  | O => ([], g)
  | S k' =>
      let g' := lcg_next g in
      let j := Z.to_nat (g' mod Z.of_nat (length pool)) in
      match pool !! j with
      | Some x => let '(l, g'') := lcg_draw k' g' (delete j pool) in
                  (x :: l, g'')
      | None => ([], g')
      end
  end.

Definition lcg_sample (g : Z) (pop : list string) (k : Z)
  : result (list string * Z) :=
  if (0 <=? k) && (k <=? Z.of_nat (length pop))
  then Ok (lcg_draw (Z.to_nat k) g pop)
  else Raise (ValueError "Sample larger than population or is negative").

Definition lcg_prng : PRNG := {|
  rng := Z;
  Random := fun seed => seed mod 2147483648;
  sample := lcg_sample
|}.

(** A backend in which the jobs of even seed are complete, the selector
    jobs are blocked and nothing else has happened. *)
Definition even_seed_backend : Lifecycle := {|
  ready := fun _ => false;
  failed := fun _ => false;
  blocked := fun job => match job with Selector _ => true | _ => false end;
  pending := fun _ => false;
  running := fun _ => false;
  complete := fun job =>
    match job with
    | Algorithm j => Z.even (saj_seed j)
    | Selector j => false
    | Baseline j => Z.even (bj_seed j)
    end;
  in_progress := fun _ => false
|}.

(** Selector specs and configurations for the examples. *)
Definition all_selector : selector_config :=
  {| sc_name := Some "ALL"; sc_type := Some "all";
     sc_n := None; sc_selection_seeds := None |}.

Definition top2_selector : selector_config :=
  {| sc_name := Some "TOP2"; sc_type := Some "top_n";
     sc_n := Some 2; sc_selection_seeds := None |}.

Definition ran2_selector : selector_config :=
  {| sc_name := Some "RAN2"; sc_type := Some "n_random_selection";
     sc_n := Some 2; sc_selection_seeds := Some [1; 2] |}.

Definition bogus_selector : selector_config :=
  {| sc_name := Some "BEST"; sc_type := Some "bogus";
     sc_n := None; sc_selection_seeds := None |}.

Definition ran5_selector : selector_config :=
  {| sc_name := Some "RAN5"; sc_type := Some "n_random_selection";
     sc_n := Some 5; sc_selection_seeds := Some [1] |}.

Definition small_config : BenchmarkConfig := {|
  id_ := "small";
  dir := "/data";
  username := "bench";
  seeds := [1; 2];
  times_in_mins := [30; 60];
  openml_tasks := [3];
  data_splits := [(0.5, 0.25, 0.25)%float];
  algorithms := ["NB"; "TR"; "KNN"];
  selectors := [all_selector; top2_selector; ran2_selector];
  baselines := {[ "scale" := 3 ]}
|}.

(** [small_config] with a selector of a type that [selector_jobs] does
    not know, after one that it knows. *)
Definition bogus_config : BenchmarkConfig := {|
  id_ := "small";
  dir := "/data";
  username := "bench";
  seeds := [1; 2];
  times_in_mins := [30; 60];
  openml_tasks := [3];
  data_splits := [(0.5, 0.25, 0.25)%float];
  algorithms := ["NB"; "TR"; "KNN"];
  selectors := [all_selector; bogus_selector];
  baselines := {[ "scale" := 3 ]}
|}.

(** [small_config] with a random selector that asks for five of the three
    algorithms. *)
Definition starved_config : BenchmarkConfig := {|
  id_ := "small";
  dir := "/data";
  username := "bench";
  seeds := [1; 2];
  times_in_mins := [30; 60];
  openml_tasks := [3];
  data_splits := [(0.5, 0.25, 0.25)%float];
  algorithms := ["NB"; "TR"; "KNN"];
  selectors := [all_selector; ran5_selector];
  baselines := {[ "scale" := 3 ]}
|}.

(** ** Notions the specification uses to describe the enumeration *)

(** The cartesian product in lexicographic nesting: the first list is the
    outermost dimension, the last one the innermost. *)
Definition lex_product3 {A B C} (xs : list A) (ys : list B) (zs : list C)
  : list (A * B * C) :=
  flat_map (fun x =>
    flat_map (fun y => map (fun z => (x, y, z)) zs) ys) xs.

Definition lex_product4 {A B C D} (xs : list A) (ys : list B) (zs : list C)
    (ws : list D) : list (A * B * C * D) :=
  flat_map (fun x =>
    flat_map (fun y =>
      flat_map (fun z => map (fun w => (x, y, z, w)) ws) zs) ys) xs.

(** What remains of the outcome of a method once the heap is forgotten and
    its value is seen through [proj]. *)
Definition observe {X Y} (proj : X -> Y) (r : result (X * heap)) : result Y :=
  match r with
  | Ok (x, _) => Ok (proj x)
  | Raise e => Raise e
  end.

(** A job without the identity of the object that represents it. *)
Definition erase_saj (j : SingleAlgorithmJob) : SingleAlgorithmJob :=
  {| saj_oid := 0; saj_env := saj_env j; saj_seed := saj_seed j;
     saj_times := saj_times j; saj_task := saj_task j; saj_root := saj_root j;
     saj_split := saj_split j; saj_algo := saj_algo j;
     saj_runner := saj_runner j |}.

Definition erase_bj (j : BaselineJob) : BaselineJob :=
  {| bj_oid := 0; bj_env := bj_env j; bj_seed := bj_seed j;
     bj_times := bj_times j; bj_task := bj_task j; bj_root := bj_root j;
     bj_split := bj_split j; bj_runner := bj_runner j |}.

Definition erase_sj (j : SelectorJob) : SelectorJob :=
  {| sj_oid := 0; sj_env := sj_env j; sj_seed := sj_seed j;
     sj_times := sj_times j; sj_task := sj_task j; sj_root := sj_root j;
     sj_split := sj_split j; sj_runner := sj_runner j; sj_name := sj_name j;
     sj_algorithm_jobs := map erase_saj (sj_algorithm_jobs j) |}.

Definition erase (j : TPOTJob) : TPOTJob :=
  match j with
  | Algorithm j => Algorithm (erase_saj j)
  | Selector j => Selector (erase_sj j)
  | Baseline j => Baseline (erase_bj j)
  end.

(** The identity tuple of a job: seed, task, split, time budgets, name of
    the algorithm or of the selector (a baseline job has none), and root
    path. *)
Definition identity (j : TPOTJob)
  : Z * Z * split * list Z * option string * string :=
  match j with
  | Algorithm j =>
      (saj_seed j, saj_task j, saj_split j, saj_times j, Some (saj_algo j),
       saj_root j)
  | Selector j =>
      (sj_seed j, sj_task j, sj_split j, sj_times j, Some (sj_name j),
       sj_root j)
  | Baseline j =>
      (bj_seed j, bj_task j, bj_split j, bj_times j, None, bj_root j)
  end.

(** The length of a list of jobs and its identity tuples, in order. *)
Definition identities {X} (inj : X -> TPOTJob) (js : list X)
  : nat * list (Z * Z * split * list Z * option string * string) :=
  (length js, map (fun j => identity (inj j)) js).

(** Two methods agree when, from any two heaps, they raise the same
    exception or return values that [proj] does not tell apart. *)
Definition agree {X Y} (proj : X -> Y) (m1 m2 : M X) : Prop :=
  forall h1 h2, observe proj (m1 h1) = observe proj (m2 h2).

(** The random subset selector of the specification: the sample of [n]
    elements of [A] drawn from a generator created with the seed [s * n]. *)
Definition random_subset `{PRNG} (A : list string) (n s : Z)
  : result (list string) :=
  match sample (Random (s * n)) A n with
  | Ok (l, _) => Ok l
  | Raise e => Raise e
  end.

Section Built.
Context `{OsPath} `{PRNG}.

(** The strategy output of one selector spec: what one iteration of the
    loop of [selector_jobs] adds to [jobs]. *)
Definition resolve (self : Benchmark) (selector_config : selector_config)
  : M (list SelectorJob) :=
  selector_type <- getfield (sc_type selector_config) "type" ;;
  get_selector <- getitem (functions self) selector_type ;;
  get_selector selector_config.

(** The job that [SingleAlgorithmJob(...)] builds as the object [oid] for
    an element of [product(seeds, tasks, splits, algorithms)]. *)
Definition built_algorithm_job (cfg : BenchmarkConfig) (oid : nat)
    (x : Z * Z * split * string) : SingleAlgorithmJob :=
  let '(seed, task, split, algo) := x in
  {| saj_oid := oid; saj_env := {| env_username := username cfg |};
     saj_seed := seed; saj_times := times_in_mins cfg; saj_task := task;
     saj_root := os_path_abspath (os_path_join (dir cfg) (id_ cfg));
     saj_split := split; saj_algo := algo;
     saj_runner := single_algorithm_runner |}.

(** The selector job that one iteration of the loop over
    [product(seeds, tasks, splits)] builds from the heap [h], for the
    selector [name] and the algorithms [algos]: the jobs it depends on are
    allocated first, in the order of [algos], then the selector job. *)
Definition built_selector_job (cfg : BenchmarkConfig) (name : string)
    (algos : list string) (h : heap) (x : Z * Z * split) : SelectorJob :=
  let '(seed, task, split) := x in
  {| sj_oid := h + length algos;
     sj_env := {| env_username := username cfg |}; sj_seed := seed;
     sj_times := times_in_mins cfg; sj_task := task;
     sj_root := os_path_abspath (os_path_join (dir cfg) (id_ cfg));
     sj_split := split; sj_runner := selector_runner; sj_name := name;
     sj_algorithm_jobs :=
       imap (fun i algo => built_algorithm_job cfg (h + i) (x, algo)) algos |}.

(** What the random strategy adds for one selection seed [s]: the selector
    jobs of the sub-selector named after [s], over the random subset drawn
    for [s], or the exception of the draw. *)
Definition built_random_block (cfg : BenchmarkConfig) (name : string) (n : Z)
    (s : Z) : M (list SelectorJob) :=
  fun h =>
    match random_subset (algorithms cfg) n s with
    | Ok l =>
        let P := product3 (seeds cfg) (openml_tasks cfg) (data_splits cfg) in
        Ok (imap (fun p =>
                    built_selector_job cfg (name +:+ "_" +:+ pretty s) l
                      (h + p * (length l + 1))) P,
            h + length P * (length l + 1))%nat
    | Raise e => Raise e
    end.

End Built.

(** A configuration without selectors whose scale is 0. *)
Definition zero_scale_config : BenchmarkConfig := {|
  id_ := "small";
  dir := "/data";
  username := "bench";
  seeds := [1; 2];
  times_in_mins := [30; 60];
  openml_tasks := [3];
  data_splits := [(0.5, 0.25, 0.25)%float];
  algorithms := ["NB"];
  selectors := [];
  baselines := {[ "scale" := 0 ]}
|}.

(** A random selector spec that asks for five algorithms, has no name and
    no selection seed. *)
Definition idle_random_selector : selector_config :=
  {| sc_name := None; sc_type := Some "n_random_selection";
     sc_n := Some 5; sc_selection_seeds := Some [] |}.

(** The selector specs that [selector_jobs] can serve with a generator
    that obeys the laws of [Random.sample]: an "all" spec with a name, a
    placeholder spec, or a random spec with a count and selection seeds which
    either has no selection seed or has a name and a count between 0 and the
    number of algorithms. *)
Definition well_formed_selector (cfg : BenchmarkConfig)
    (sc : selector_config) : bool :=
  match sc_type sc with
  | None => false
  | Some t =>
      if String.eqb t "all" then
        match sc_name sc with Some _ => true | None => false end
      else if String.eqb t "n_random_selection" then
        match sc_n sc, sc_selection_seeds sc with
        | Some _, Some [] => true
        | Some n, Some (_ :: _) =>
            match sc_name sc with
            | Some _ =>
                (0 <=? n) && (n <=? Z.of_nat (length (algorithms cfg)))
            | None => false
            end
        | _, _ => false
        end
      else String.eqb t "top_n" || String.eqb t "n_least_overlapping"
           || String.eqb t "n_most_coverage"
  end.


(** The objects of a job, in the order of their allocation: the jobs a
    selector job depends on come before the selector job. *)
Definition job_objects (j : TPOTJob) : list nat :=
  match j with
  | Algorithm j => [saj_oid j]
  | Selector j => map saj_oid (sj_algorithm_jobs j) ++ [sj_oid j]
  | Baseline j => [bj_oid j]
  end.

(** A method allocates the objects [objs x] of its result [x] when these
    are, in order, all the objects between the heap before and the heap after
    the call. *)
Definition allocates {X} (objs : X -> list nat) (m : M X) : Prop :=
  forall h x h', m h = Ok (x, h') ->
                 (h <= h')%nat /\ objs x = seq h (h' - h).

Section Settled.
Context `{OsPath}.

(** A job is settled in the benchmark of [cfg] when it carries the
    environment, the root folder and the times of the benchmark, the runner of
    its kind, and a seed, a task and a split of the configuration; an
    algorithm job runs a configured algorithm, and the jobs a selector job
    depends on are algorithm jobs for the seed, task and split of the selector
    job. *)
Definition settled (cfg : BenchmarkConfig) (j : TPOTJob) : Prop :=
  let env := {| env_username := username cfg |} in
  let root := os_path_abspath (os_path_join (dir cfg) (id_ cfg)) in
  match j with
  | Algorithm j =>
      saj_env j = env /\ saj_root j = root
      /\ saj_runner j = single_algorithm_runner
      /\ saj_times j = times_in_mins cfg
      /\ saj_seed j ∈ seeds cfg /\ saj_task j ∈ openml_tasks cfg
      /\ saj_split j ∈ data_splits cfg /\ saj_algo j ∈ algorithms cfg
  | Selector j =>
      sj_env j = env /\ sj_root j = root /\ sj_runner j = selector_runner
      /\ sj_times j = times_in_mins cfg
      /\ sj_seed j ∈ seeds cfg /\ sj_task j ∈ openml_tasks cfg
      /\ sj_split j ∈ data_splits cfg
      /\ Forall (fun d =>
                   saj_env d = env /\ saj_root d = root
                   /\ saj_runner d = single_algorithm_runner
                   /\ saj_times d = times_in_mins cfg
                   /\ saj_seed d = sj_seed j /\ saj_task d = sj_task j
                   /\ saj_split d = sj_split j)
                (sj_algorithm_jobs j)
  | Baseline j =>
      bj_env j = env /\ bj_root j = root /\ bj_runner j = baseline_runner
      /\ bj_seed j ∈ seeds cfg /\ bj_task j ∈ openml_tasks cfg
      /\ bj_split j ∈ data_splits cfg
  end.

End Settled.

(** [small_config] without the key [scale], and an "all" spec without a
    name. *)
Definition unscaled_config : BenchmarkConfig := {|
  id_ := "small";
  dir := "/data";
  username := "bench";
  seeds := [1; 2];
  times_in_mins := [30; 60];
  openml_tasks := [3];
  data_splits := [(0.5, 0.25, 0.25)%float];
  algorithms := ["NB"; "TR"; "KNN"];
  selectors := [all_selector; top2_selector; ran2_selector];
  baselines := ∅
|}.

Definition nameless_all_selector : selector_config :=
  {| sc_name := None; sc_type := Some "all";
     sc_n := None; sc_selection_seeds := None |}.

(** A random selector that asks for all three algorithms of
    [small_config]. *)
Definition ran3_selector : selector_config :=
  {| sc_name := Some "RAN3"; sc_type := Some "n_random_selection";
     sc_n := Some 3; sc_selection_seeds := Some [7] |}.

(** A random selector spec that has only its type. *)
Definition bare_random_selector : selector_config :=
  {| sc_name := None; sc_type := Some "n_random_selection";
     sc_n := None; sc_selection_seeds := None |}.

(** A spec whose type tag is the string [name], and [small_config] with
    other selector specs. *)
Definition name_tag_selector : selector_config :=
  {| sc_name := Some "ODD"; sc_type := Some "name";
     sc_n := None; sc_selection_seeds := None |}.

Definition small_config_with (selector_specs : list selector_config)
  : BenchmarkConfig := {|
  id_ := "small";
  dir := "/data";
  username := "bench";
  seeds := [1; 2];
  times_in_mins := [30; 60];
  openml_tasks := [3];
  data_splits := [(0.5, 0.25, 0.25)%float];
  algorithms := ["NB"; "TR"; "KNN"];
  selectors := selector_specs;
  baselines := {[ "scale" := 3 ]}
|}.

(** The value of the local variable [baseline_times] of [baseline_jobs]
    once its loop has run. *)
Definition rescaled_times (times : list Z) (scale : Z) : gset Z :=
  fold_left (fun (baseline_times : gset Z) i =>
               baseline_times ∪ list_to_set (map (fun x => x * i) times))
            (range 1 (scale + 1)) ∅.

Section BuiltLeaves.
Context `{OsPath}.

(** The job that [BaselineJob(...)] builds as the object [oid] for an
    element of [product(seeds, tasks, splits)] when the scale is [scale]. *)
Definition built_baseline_job (cfg : BenchmarkConfig) (scale : Z) (oid : nat)
    (x : Z * Z * split) : BaselineJob :=
  let '(seed, task, split) := x in
  {| bj_oid := oid; bj_env := {| env_username := username cfg |};
     bj_seed := seed;
     bj_times := elements (rescaled_times (times_in_mins cfg) scale);
     bj_task := task;
     bj_root := os_path_abspath (os_path_join (dir cfg) (id_ cfg));
     bj_split := split; bj_runner := baseline_runner |}.

End BuiltLeaves.

(** ** Running the monad *)

Section Running.
Context {A B : Type}.

Lemma mapM_allocating (c : nat) (f : A -> M B) (g : heap -> A -> B) :
  (forall a h, f a h = Ok (g h a, (h + c)%nat)) ->
  forall l h,
    mapM f l h
    = Ok (imap (fun i a => g (h + i * c)%nat a) l, (h + length l * c)%nat).
Proof.
  intros Hf l. induction l as [|a l IH]; intros h; simpl.
  - unfold ret. by rewrite Nat.add_0_r.
  - unfold bind at 1. rewrite Hf. unfold bind at 1. rewrite IH.
    unfold ret. rewrite Nat.add_0_r. do 2 f_equal.
    + f_equal. apply imap_ext. intros i x _. simpl. f_equal. lia.
    + lia.
Qed.

Lemma for_each_append (f : A -> M B) (body : list B -> A -> M (list B)) :
  (forall acc x h,
      body acc x h = match f x h with
                     | Ok (y, h') => Ok (acc ++ [y], h')
                     | Raise e => Raise e
                     end) ->
  forall l acc h,
    for_each l body acc h = match mapM f l h with
                            | Ok (ys, h') => Ok (acc ++ ys, h')
                            | Raise e => Raise e
                            end.
Proof.
  intros Hbody l. induction l as [|x l IH]; intros acc h; simpl.
  - unfold ret. by rewrite app_nil_r.
  - unfold bind. rewrite Hbody. destruct (f x h) as [[y h']|e]; [|done].
    rewrite IH. destruct (mapM f l h') as [[ys h'']|e]; [|done].
    unfold ret. by rewrite <- app_assoc.
Qed.

Lemma for_each_extend (f : A -> M (list B))
    (body : list B -> A -> M (list B)) :
  (forall acc x h,
      body acc x h = match f x h with
                     | Ok (ys, h') => Ok (acc ++ ys, h')
                     | Raise e => Raise e
                     end) ->
  forall l acc h,
    for_each l body acc h = match mapM f l h with
                            | Ok (yss, h') => Ok (acc ++ concat yss, h')
                            | Raise e => Raise e
                            end.
Proof.
  intros Hbody l. induction l as [|x l IH]; intros acc h; simpl.
  - unfold ret. by rewrite app_nil_r.
  - unfold bind. rewrite Hbody. destruct (f x h) as [[ys h']|e]; [|done].
    rewrite IH. destruct (mapM f l h') as [[yss h'']|e]; [|done].
    unfold ret. simpl. by rewrite <- app_assoc.
Qed.

End Running.

(** ** [itertools.product] enumerates in lexicographic nesting *)

Section Product.
Context {A B C D : Type}.

Lemma flat_map_flat_map {X Y Z} (f : X -> list Y) (g : Y -> list Z) l :
  flat_map g (flat_map f l) = flat_map (fun x => flat_map g (f x)) l.
Proof.
  induction l as [|x l IH]; simpl; [done|].
  by rewrite flat_map_app, IH.
Qed.

Lemma flat_map_map {X Y Z} (f : X -> Y) (g : Y -> list Z) l :
  flat_map g (map f l) = flat_map (fun x => g (f x)) l.
Proof. induction l as [|x l IH]; simpl; [done|]. by rewrite IH. Qed.

Lemma product3_lex (xs : list A) (ys : list B) (zs : list C) :
  product3 xs ys zs = lex_product3 xs ys zs.
Proof.
  unfold product3, product2, lex_product3. rewrite flat_map_flat_map.
  apply flat_map_ext. intros x. by rewrite flat_map_map.
Qed.

Lemma product4_lex (xs : list A) (ys : list B) (zs : list C) (ws : list D) :
  product4 xs ys zs ws = lex_product4 xs ys zs ws.
Proof.
  unfold product4. rewrite product3_lex. unfold lex_product3, lex_product4.
  rewrite flat_map_flat_map. apply flat_map_ext. intros x.
  rewrite flat_map_flat_map. apply flat_map_ext. intros y.
  by rewrite flat_map_map.
Qed.

Lemma length_flat_map_const {X Y} (f : X -> list Y) (n : nat) l :
  (forall x, length (f x) = n) ->
  length (flat_map f l) = (length l * n)%nat.
Proof.
  intros Hf. induction l as [|x l IH]; simpl; [done|].
  rewrite length_app, Hf, IH. lia.
Qed.

Lemma length_product3 (xs : list A) (ys : list B) (zs : list C) :
  length (product3 xs ys zs) = (length xs * length ys * length zs)%nat.
Proof.
  unfold product3, product2.
  rewrite (length_flat_map_const _ (length zs))
    by (intros; apply length_map).
  by rewrite (length_flat_map_const _ (length ys))
    by (intros; apply length_map).
Qed.

Lemma length_product4 (xs : list A) (ys : list B) (zs : list C)
    (ws : list D) :
  length (product4 xs ys zs ws)
  = (length xs * length ys * length zs * length ws)%nat.
Proof.
  unfold product4.
  rewrite (length_flat_map_const _ (length ws))
    by (intros; apply length_map).
  by rewrite length_product3.
Qed.

End Product.

(** ** The leaf factories *)

Section Leaves.
Context `{OsPath} `{PRNG} `{Lifecycle}.

Lemma folders_root (cfg : BenchmarkConfig) :
  folders (Benchmark_init (Some cfg)) !! "root"
  = Some (os_path_abspath (os_path_join (dir cfg) (id_ cfg))).
Proof. apply lookup_singleton_eq. Qed.

Lemma algorithm_jobs_run (cfg : BenchmarkConfig) (h : heap) :
  let P := product4 (seeds cfg) (openml_tasks cfg) (data_splits cfg)
                    (algorithms cfg) in
  algorithm_jobs (Benchmark_init (Some cfg)) h
  = Ok (imap (fun i => built_algorithm_job cfg (h + i)%nat) P,
        (h + length P)%nat).
Proof.
  intros P. unfold algorithm_jobs, bind at 1, getitem. rewrite folders_root.
  unfold ret at 1. change (config (Benchmark_init (Some cfg))) with cfg.
  fold P. rewrite (mapM_allocating 1 _ (built_algorithm_job cfg)).
  - do 2 f_equal; [|lia].
    apply imap_ext. intros i x _. simpl. f_equal. lia.
  - intros [[[seed task] split] algo] h0.
    unfold new_SingleAlgorithmJob, bind, fresh, ret. simpl.
    do 2 f_equal. lia.
Qed.

Lemma built_algorithm_job_key (cfg : BenchmarkConfig) (oid : nat)
    (x : Z * Z * split * string) :
  let j := built_algorithm_job cfg oid x in
  (saj_seed j, saj_task j, saj_split j, saj_algo j) = x
  /\ saj_times j = times_in_mins cfg /\ saj_oid j = oid.
Proof. by destruct x as [[[seed task] split] algo]. Qed.

(** C1.  For every configuration, [algorithm_jobs] succeeds and returns
    one job per element of seeds x tasks x splits x algorithms, in
    lexicographic nesting with the seed outermost and the algorithm
    innermost; every job carries the whole list [times_in_mins]; the number
    of jobs is the product of the four lengths, and the list is empty as soon
    as one dimension is. *)
Theorem algorithm_jobs_cartesian (cfg : BenchmarkConfig) (h : heap) :
  exists js,
    algorithm_jobs (Benchmark_init (Some cfg)) h = Ok (js, (h + length js)%nat)
    /\ map (fun j => (saj_seed j, saj_task j, saj_split j, saj_algo j)) js
       = lex_product4 (seeds cfg) (openml_tasks cfg) (data_splits cfg)
                      (algorithms cfg)
    /\ Forall (fun j => saj_times j = times_in_mins cfg) js
    /\ length js
       = (length (seeds cfg) * length (openml_tasks cfg)
          * length (data_splits cfg) * length (algorithms cfg))%nat
    /\ (seeds cfg = [] \/ openml_tasks cfg = [] \/ data_splits cfg = []
        \/ algorithms cfg = [] -> js = []).
Proof.
  pose proof (algorithm_jobs_run cfg h) as Hrun. simpl in Hrun.
  set (P := product4 (seeds cfg) (openml_tasks cfg) (data_splits cfg)
                     (algorithms cfg)) in *.
  set (js := imap (fun i => built_algorithm_job cfg (h + i)%nat) P) in *.
  assert (Hlen : length js = length P) by apply length_imap.
  exists js. repeat split.
  - by rewrite Hrun, Hlen.
  - rewrite <- product4_lex. fold P. unfold js.
    change (map ?f ?l) with (f <$> l). rewrite fmap_imap.
    rewrite <- (list_fmap_id P) at 2. rewrite <- imap_const.
    apply imap_ext. intros i x _. apply built_algorithm_job_key.
  - apply Forall_forall. intros j Hj.
    apply list_elem_of_lookup in Hj as [i Hi]. unfold js in Hi.
    rewrite list_lookup_imap in Hi.
    destruct (P !! i) as [x|]; simpl in Hi; [|done].
    inversion Hi. apply built_algorithm_job_key.
  - rewrite Hlen. apply length_product4.
  - intros Hempty. apply length_zero_iff_nil. rewrite Hlen.
    unfold P. rewrite length_product4.
    destruct Hempty as [-> | [-> | [-> | ->]]]; simpl; lia.
Qed.

End Leaves.

(** ** The rescaled time budgets of the baseline jobs *)

Section Rescaling.
Context `{OsPath}.

Lemma elem_of_range (lo hi i : Z) : i ∈ range lo hi <-> lo <= i < hi.
Proof.
  unfold range. change (map ?f ?l) with (f <$> l). rewrite list_elem_of_fmap.
  split.
  - intros (k & -> & Hk). apply elem_of_seq in Hk. lia.
  - intros Hi. exists (Z.to_nat (i - lo)). split; [lia|].
    apply elem_of_seq. lia.
Qed.

Lemma elem_of_fold_union (times : list Z) (l : list Z) (acc : gset Z) x :
  x ∈ fold_left (fun (baseline_times : gset Z) i =>
                   baseline_times ∪ list_to_set (map (fun x => x * i) times))
                l acc
  <-> x ∈ acc \/ exists i t, i ∈ l /\ t ∈ times /\ x = t * i.
Proof.
  revert acc. induction l as [|i l IH]; intros acc; simpl.
  - split; [by left|]. intros [Hx|(i & t & Hi & _)]; [done|].
    by apply elem_of_nil in Hi.
  - rewrite IH, elem_of_union, elem_of_list_to_set.
    change (map ?f ?l) with (f <$> l). rewrite list_elem_of_fmap. split.
    + intros [[Hx|(t & -> & Ht)]|(i' & t & Hi' & Ht & ->)].
      * by left.
      * right. exists i, t. split; [by left|done].
      * right. exists i', t. split; [by right|done].
    + intros [Hx|(i' & t & Hi' & Ht & ->)]; [by left; left|].
      apply elem_of_cons in Hi' as [->|Hi'].
      * left. right. by exists t.
      * right. by exists i', t.
Qed.

(** C2, as amended.  For every configuration whose [baselines] holds a
    scale [S], [baseline_jobs] succeeds and returns one job per element of
    seeds x tasks x splits, in lexicographic nesting; the times of every job
    are without duplicates and are exactly the products [t * i] with [t] a
    configured time and [1 <= i <= S].  For the times 30, 60 and the scale 3
    these are the five values 30, 60, 90, 120, 180. *)
Theorem baseline_jobs_rescaled (cfg : BenchmarkConfig) (S : Z) (h : heap) :
  baselines cfg !! "scale" = Some S ->
  exists js,
    baseline_jobs (Benchmark_init (Some cfg)) h = Ok (js, (h + length js)%nat)
    /\ map (fun j => (bj_seed j, bj_task j, bj_split j)) js
       = lex_product3 (seeds cfg) (openml_tasks cfg) (data_splits cfg)
    /\ length js
       = (length (seeds cfg) * length (openml_tasks cfg)
          * length (data_splits cfg))%nat
    /\ Forall (fun j =>
          NoDup (bj_times j)
          /\ forall x, x ∈ bj_times j
               <-> exists i t, 1 <= i <= S /\ t ∈ times_in_mins cfg
                               /\ x = t * i) js
    /\ (times_in_mins cfg = [30; 60] -> S = 3 ->
        Forall (fun j =>
          list_to_set (bj_times j) = ({[30; 60; 90; 120; 180]} : gset Z)
          /\ length (bj_times j) = 5%nat) js).
Proof.
  intros Hscale.
  set (root := os_path_abspath (os_path_join (dir cfg) (id_ cfg))).
  set (bt := fold_left
               (fun (baseline_times : gset Z) i =>
                  baseline_times
                  ∪ list_to_set (map (fun x => x * i) (times_in_mins cfg)))
               (range 1 (S + 1)) (∅ : gset Z)).
  set (mk := fun (oid : heap) (x : Z * Z * split) =>
     let '(seed, task, split) := x in
     {| bj_oid := oid; bj_env := {| env_username := username cfg |};
        bj_seed := seed; bj_times := elements bt; bj_task := task;
        bj_root := root; bj_split := split; bj_runner := baseline_runner |}).
  set (P := product3 (seeds cfg) (openml_tasks cfg) (data_splits cfg)).
  assert (Hrun : baseline_jobs (Benchmark_init (Some cfg)) h
                 = Ok (imap (fun i => mk (h + i * 1)%nat) P,
                       (h + length P * 1)%nat)).
  { unfold baseline_jobs, bind at 1, getitem. rewrite folders_root.
    unfold ret at 1. unfold bind at 1.
    change (config (Benchmark_init (Some cfg))) with cfg. rewrite Hscale.
    unfold ret at 1. apply mapM_allocating.
    intros [[seed task] split] h0.
    unfold new_BaselineJob, bind, fresh, ret. simpl. do 2 f_equal. lia. }
  assert (Hlen : length (imap (fun i => mk (h + i * 1)%nat) P) = length P)
    by apply length_imap.
  assert (Htimes : forall j, j ∈ imap (fun i => mk (h + i * 1)%nat) P ->
                             bj_times j = elements bt).
  { intros j Hj. apply list_elem_of_lookup in Hj as [i Hi].
    rewrite list_lookup_imap in Hi.
    destruct (P !! i) as [[[seed task] split]|]; simpl in Hi; [|done].
    by inversion Hi. }
  exists (imap (fun i => mk (h + i * 1)%nat) P). repeat split.
  - rewrite Hrun, Hlen. do 2 f_equal. lia.
  - rewrite <- product3_lex. fold P.
    change (map ?f ?l) with (f <$> l). rewrite fmap_imap.
    rewrite <- (list_fmap_id P) at 2. rewrite <- imap_const.
    apply imap_ext. by intros i [[seed task] split] _.
  - rewrite Hlen. apply length_product3.
  - apply Forall_forall. intros j Hj. rewrite (Htimes j Hj). split.
    + apply NoDup_elements.
    + intros x. rewrite elem_of_elements. unfold bt.
      rewrite elem_of_fold_union. split.
      * intros [Hx|(i & t & Hi & Ht & ->)]; [by apply elem_of_empty in Hx|].
        apply elem_of_range in Hi. exists i, t. repeat split; [lia..|done].
      * intros (i & t & Hi & Ht & ->). right. exists i, t.
        split; [apply elem_of_range; lia|done].
  - intros HT HS. apply Forall_forall. intros j Hj. rewrite (Htimes j Hj).
    rewrite list_to_set_elements_L. unfold bt. rewrite HT, HS.
    split; vm_compute; reflexivity.
Qed.

End Rescaling.

(** On [small_config] (times 30 and 60, scale 3). *)
Lemma baseline_jobs_rescaled_small :
  exists js,
    @baseline_jobs posix_paths (@Benchmark_init posix_paths (Some small_config))
                   0%nat
    = Ok (js, (0 + length js)%nat)
    /\ length js = 2%nat
    /\ Forall (fun j =>
          list_to_set (bj_times j) = ({[30; 60; 90; 120; 180]} : gset Z)
          /\ length (bj_times j) = 5%nat) js.
Proof.
  destruct (@baseline_jobs_rescaled posix_paths small_config 3 0%nat)
    as (js & Hrun & _ & Hlen & _ & Hex); [reflexivity|].
  exists js. split; [exact Hrun|]. split; [exact Hlen|].
  apply Hex; reflexivity.
Defined.

(** C2, as stated, fails on its own example: with the times 30, 60 and
    the scale 3 the baseline jobs carry five times, and 150 is not one of
    them. *)
Lemma baseline_times_30_60_scale_3_not_six :
  exists js h',
    @baseline_jobs posix_paths (@Benchmark_init posix_paths (Some small_config))
                   0%nat
    = Ok (js, h')
    /\ js <> []
    /\ Forall (fun j =>
          (150 ∉ bj_times j)
          /\ length (bj_times j) <> 6%nat
          /\ list_to_set (bj_times j)
             <> ({[30; 60; 90; 120; 150; 180]} : gset Z)) js.
Proof.
  eexists _, _. split; [vm_compute; reflexivity|]. split; [done|].
  apply Forall_forall. intros j Hj.
  assert (Htimes : bj_times j = [30; 90; 60; 180; 120]).
  { repeat (apply elem_of_cons in Hj as [->|Hj]); [done..|].
    by apply elem_of_nil in Hj. }
  rewrite Htimes. split.
  { intros Hin. repeat (apply elem_of_cons in Hin as [?|Hin]; [done|]).
    by apply elem_of_nil in Hin. }
  split; [simpl; lia|]. intros E.
  assert (Hin : 150 ∈ (list_to_set [30; 90; 60; 180; 120] : gset Z))
    by (rewrite E; set_solver).
  revert Hin. vm_compute. done.
Qed.

(** ** The selector strategies *)

Section Selectors.
Context `{OsPath} `{PRNG}.

Lemma selector_loop_run (cfg : BenchmarkConfig) (name : string)
    (algos : list string) (P : list (Z * Z * split))
    (acc : list SelectorJob) (h : heap) :
  let env := {| env_username := username cfg |} in
  let root := os_path_abspath (os_path_join (dir cfg) (id_ cfg)) in
  for_each P
    (fun jobs '(seed, task, split) =>
       algorithm_jobs <-
         mapM (fun algo =>
                 new_SingleAlgorithmJob env seed (times_in_mins cfg) task root
                                        split algo single_algorithm_runner)
              algos ;;
       selector_job <-
         new_SelectorJob env seed (times_in_mins cfg) task root split
                         selector_runner name algorithm_jobs ;;
       ret (jobs ++ [selector_job]))
    acc h
  = Ok (acc ++ imap (fun p =>
                       built_selector_job cfg name algos
                         (h + p * (length algos + 1))%nat) P,
        (h + length P * (length algos + 1))%nat).
Proof.
  intros env root.
  set (f := fun x : Z * Z * split =>
     let '(seed, task, split) := x in
     algorithm_jobs <-
       mapM (fun algo =>
               new_SingleAlgorithmJob env seed (times_in_mins cfg) task root
                                      split algo single_algorithm_runner)
            algos ;;
     new_SelectorJob env seed (times_in_mins cfg) task root split
                     selector_runner name algorithm_jobs).
  assert (Hf : forall x h0,
             f x h0 = Ok (built_selector_job cfg name algos h0 x,
                          (h0 + (length algos + 1))%nat)).
  { intros [[seed task] split] h0. unfold f, bind at 1.
    rewrite (mapM_allocating 1
               (fun algo =>
                  new_SingleAlgorithmJob env seed (times_in_mins cfg) task
                    root split algo single_algorithm_runner)
               (fun oid algo =>
                  {| saj_oid := oid; saj_env := env; saj_seed := seed;
                     saj_times := times_in_mins cfg; saj_task := task;
                     saj_root := root; saj_split := split; saj_algo := algo;
                     saj_runner := single_algorithm_runner |})).
    - unfold new_SelectorJob, bind, fresh, ret, built_selector_job.
      fold env root. do 2 f_equal; [|lia]. f_equal; [lia|].
      apply imap_ext. intros i algo _. simpl. f_equal. lia.
    - intros algo h1. unfold new_SingleAlgorithmJob, bind, fresh, ret.
      do 2 f_equal. lia. }
  rewrite (for_each_append f).
  - by rewrite (mapM_allocating _ f _ Hf).
  - intros jobs [[seed task] split] h0. unfold f, bind.
    destruct (mapM _ algos h0) as [[deps h1]|e]; [|done].
    by destruct (new_SelectorJob _ _ _ _ _ _ _ _ _ h1) as [[j h2]|e].
Qed.

Lemma selector_jobs_all_run (cfg : BenchmarkConfig)
    (sc : selector_config) (h : heap) :
  selector_jobs_all (Benchmark_init (Some cfg)) sc h
  = match sc_name sc with
    | Some name =>
        Ok (imap (fun p =>
                    built_selector_job cfg name (algorithms cfg)
                      (h + p * (length (algorithms cfg) + 1))%nat)
                 (product3 (seeds cfg) (openml_tasks cfg) (data_splits cfg)),
            (h + length (product3 (seeds cfg) (openml_tasks cfg)
                                  (data_splits cfg))
                 * (length (algorithms cfg) + 1))%nat)
    | None => Raise (KeyError "name")
    end.
Proof.
  unfold selector_jobs_all, bind at 1, getitem. rewrite folders_root.
  unfold ret at 1, bind at 1, getfield.
  destruct (sc_name sc) as [name|]; [|done]. unfold ret at 1.
  apply (selector_loop_run cfg name (algorithms cfg) _ [] h).
Qed.

Lemma fmap_flat_map {X Y Z} (g : Y -> Z) (f : X -> list Y) l :
  map g (flat_map f l) = flat_map (fun x => map g (f x)) l.
Proof.
  induction l as [|x l IH]; simpl; [done|]. by rewrite map_app, IH.
Qed.

Lemma flat_map_imap {X Y Z} (F : nat -> X -> Y) (f : Y -> list Z)
    (G : X -> list Z) l :
  (forall i x, f (F i x) = G x) ->
  flat_map f (imap F l) = flat_map G l.
Proof.
  revert F. induction l as [|x l IH]; intros F HF; simpl; [done|].
  rewrite HF. f_equal. apply IH. intros i y. apply HF.
Qed.

Lemma built_selector_job_fields (cfg : BenchmarkConfig) (name : string)
    (algos : list string) (h : heap) (x : Z * Z * split) :
  let j := built_selector_job cfg name algos h x in
  (sj_seed j, sj_task j, sj_split j) = x
  /\ sj_name j = name
  /\ sj_times j = times_in_mins cfg
  /\ sj_algorithm_jobs j
     = imap (fun i algo => built_algorithm_job cfg (h + i)%nat (x, algo))
            algos.
Proof. by destruct x as [[seed task] split]. Qed.

Lemma erase_imap_built {X} (cfg : BenchmarkConfig) (o : nat -> nat)
    (k : X -> Z * Z * split * string) (l : list X) :
  map erase_saj (imap (fun i x => built_algorithm_job cfg (o i) (k x)) l)
  = map (fun x => built_algorithm_job cfg 0%nat (k x)) l.
Proof.
  revert o. induction l as [|x l IH]; intros o; simpl; [done|]. f_equal.
  - by destruct (k x) as [[[seed task] split] algo].
  - apply (IH (o ∘ S)).
Qed.

(** The objects a run of the loop allocates for the dependencies are
    pairwise distinct and did not exist before the run. *)
Lemma built_selector_jobs_oids (cfg : BenchmarkConfig) (name : string)
    (algos : list string) (P : list (Z * Z * split)) (h : heap) :
  let c := (length algos + 1)%nat in
  let oids :=
    map saj_oid
      (flat_map sj_algorithm_jobs
         (imap (fun p => built_selector_job cfg name algos (h + p * c)%nat)
               P)) in
  Forall (fun o => (h <= o < h + length P * c)%nat) oids /\ NoDup oids.
Proof.
  intros c oids. subst oids. revert h.
  induction P as [|x P IH]; intros h; simpl.
  { split; constructor. }
  rewrite map_app.
  destruct (built_selector_job_fields cfg name algos (h + 0)%nat x)
    as (_ & _ & _ & ->).
  rewrite (imap_ext _ (fun p =>
             built_selector_job cfg name algos ((h + c) + p * c)%nat))
    by (intros i y _; simpl; f_equal; lia).
  destruct (IH (h + c)%nat) as [IHrange IHnodup].
  set (own := map saj_oid
                (imap (fun i algo =>
                         built_algorithm_job cfg (h + 0 + i)%nat (x, algo))
                      algos)).
  assert (Hown : forall i o, own !! i = Some o ->
                             o = (h + i)%nat /\ (i < length algos)%nat).
  { intros i o Hi. unfold own in Hi.
    change (map ?f ?l) with (f <$> l) in Hi.
    rewrite list_lookup_fmap, list_lookup_imap in Hi.
    destruct (algos !! i) as [algo|] eqn:Halgo; simpl in Hi; [|done].
    apply lookup_lt_Some in Halgo. inversion Hi.
    destruct x as [[seed task] split]. simpl. lia. }
  split.
  - apply Forall_app. split.
    + apply Forall_forall. intros o Ho.
      apply list_elem_of_lookup in Ho as [i Hi].
      apply Hown in Hi. unfold c. lia.
    + eapply Forall_impl; [exact IHrange|]. intros o Ho. simpl in Ho. lia.
  - apply NoDup_app. repeat split.
    + apply NoDup_alt. intros i j o Hi Hj.
      apply Hown in Hi, Hj. lia.
    + intros o Ho Ho'. apply list_elem_of_lookup in Ho as [i Hi].
      apply Hown in Hi. rewrite Forall_forall in IHrange.
      apply IHrange in Ho'. unfold c in Ho'. lia.
    + exact IHnodup.
Qed.

(** C4.  For every configuration and every selector spec that carries a
    name, the "all" strategy succeeds and returns one selector job per element
    of seeds x tasks x splits, in lexicographic nesting.  Each selector job
    bears the name of the spec and depends on one algorithm job per configured
    algorithm, in the order of the configuration, each for the seed, task and
    split of the selector job.  The dependencies are objects allocated by this
    call, pairwise distinct, and taken together they agree in every
    constructor argument with the jobs of the leaf factory
    [algorithm_jobs]. *)
Theorem selector_jobs_all_dependencies (cfg : BenchmarkConfig)
    (sc : selector_config) (name : string) (h : heap) :
  sc_name sc = Some name ->
  exists js h',
    selector_jobs_all (Benchmark_init (Some cfg)) sc h = Ok (js, h')
    /\ map (fun j => (sj_seed j, sj_task j, sj_split j)) js
       = lex_product3 (seeds cfg) (openml_tasks cfg) (data_splits cfg)
    /\ Forall (fun j =>
          sj_name j = name
          /\ map saj_algo (sj_algorithm_jobs j) = algorithms cfg
          /\ Forall (fun d => saj_seed d = sj_seed j
                              /\ saj_task d = sj_task j
                              /\ saj_split d = sj_split j)
                    (sj_algorithm_jobs j)) js
    /\ Forall (fun d => (h <= saj_oid d < h')%nat)
              (concat (map sj_algorithm_jobs js))
    /\ NoDup (map saj_oid (concat (map sj_algorithm_jobs js)))
    /\ forall h0, exists leaves,
         algorithm_jobs (Benchmark_init (Some cfg)) h0
         = Ok (leaves, (h0 + length leaves)%nat)
         /\ map erase_saj (concat (map sj_algorithm_jobs js))
            = map erase_saj leaves.
Proof.
  intros Hname.
  pose proof (selector_jobs_all_run cfg sc h) as Hrun. rewrite Hname in Hrun.
  set (P := product3 (seeds cfg) (openml_tasks cfg) (data_splits cfg)) in *.
  set (c := (length (algorithms cfg) + 1)%nat) in *.
  set (js := imap (fun p =>
                     built_selector_job cfg name (algorithms cfg)
                       (h + p * c)%nat) P) in *.
  assert (Hjs : forall j, j ∈ js -> exists p x,
               j = built_selector_job cfg name (algorithms cfg)
                     (h + p * c)%nat x).
  { intros j Hj. apply list_elem_of_lookup in Hj as [p Hp]. unfold js in Hp.
    rewrite list_lookup_imap in Hp.
    destruct (P !! p) as [x|]; simpl in Hp; [|done].
    inversion Hp. by exists p, x. }
  destruct (built_selector_jobs_oids cfg name (algorithms cfg) P h)
    as [Hrange Hnodup].
  fold c js in Hrange, Hnodup.
  exists js, (h + length P * c)%nat. split; [exact Hrun|].
  rewrite <- flat_map_concat_map. repeat split.
  - rewrite <- product3_lex. fold P. unfold js.
    change (map ?f ?l) with (f <$> l). rewrite fmap_imap.
    rewrite <- (list_fmap_id P) at 2. rewrite <- imap_const.
    apply imap_ext. intros p x _. apply built_selector_job_fields.
  - apply Forall_forall. intros j Hj.
    destruct (Hjs j Hj) as (p & [[seed task] split] & ->).
    unfold built_selector_job.
    cbn [sj_name sj_algorithm_jobs sj_seed sj_task sj_split].
    split; [done|]. split.
    + change (map ?f ?l) with (f <$> l). rewrite fmap_imap.
      rewrite <- (list_fmap_id (algorithms cfg)) at 2. rewrite <- imap_const.
      by apply imap_ext.
    + apply Forall_forall. intros d Hd.
      apply list_elem_of_lookup in Hd as [i Hi].
      rewrite list_lookup_imap in Hi.
      destruct (algorithms cfg !! i) as [algo|]; simpl in Hi; [|done].
      by inversion Hi.
  - apply Forall_forall. intros d Hd. rewrite Forall_forall in Hrange.
    apply Hrange. change (map ?f ?l) with (f <$> l).
    by apply list_elem_of_fmap_2.
  - exact Hnodup.
  - intros h0. pose proof (algorithm_jobs_run cfg h0) as Hleaves.
    simpl in Hleaves.
    exists (imap (fun i => built_algorithm_job cfg (h0 + i)%nat)
                 (product4 (seeds cfg) (openml_tasks cfg) (data_splits cfg)
                           (algorithms cfg))).
    split.
    + by rewrite Hleaves, length_imap.
    + transitivity
        (flat_map (fun x =>
                     map (fun algo => built_algorithm_job cfg 0%nat (x, algo))
                         (algorithms cfg)) P).
      * rewrite fmap_flat_map. apply flat_map_imap.
        intros p [[seed task] split].
        apply (erase_imap_built cfg (fun i => (h + p * c + i)%nat)
                 (fun algo => (seed, task, split, algo))).
      * symmetry.
        etrans; [apply (erase_imap_built cfg (fun i => (h0 + i)%nat)
                          (fun x => x))|].
        unfold product4. fold P. rewrite fmap_flat_map.
        apply flat_map_ext. intros x. by rewrite map_map.
Qed.

Lemma mapM_ext {X Y} (f g : X -> M Y) (l : list X) (h : heap) :
  (forall x h0, f x h0 = g x h0) -> mapM f l h = mapM g l h.
Proof.
  intros Hfg. revert h. induction l as [|x l IH]; intros h; simpl; [done|].
  unfold bind at 1 3. rewrite Hfg. destruct (g x h) as [[y h']|e]; [|done].
  unfold bind. by rewrite IH.
Qed.

Lemma mapM_zip_fmap {X Y Z} (f : X * Y -> M Z) (g : X -> Y) (l : list X)
    (h : heap) :
  mapM f (zip l (map g l)) h = mapM (fun x => f (x, g x)) l h.
Proof.
  revert h. induction l as [|x l IH]; intros h; simpl; [done|].
  unfold bind at 1 3. destruct (f (x, g x) h) as [[y h']|e]; [|done].
  unfold bind. by rewrite IH.
Qed.

Lemma selector_names_run (sc : selector_config) (ss : list Z) (h : heap) :
  mapM (fun selection_seed : Z =>
          name <- getfield (sc_name sc) "name" ;;
          ret (name +:+ "_" +:+ pretty selection_seed)) ss h
  = match sc_name sc with
    | Some name => Ok (map (fun s => name +:+ "_" +:+ pretty s) ss, h)
    | None => match ss with
              | [] => Ok ([], h)
              | _ :: _ => Raise (KeyError "name")
              end
    end.
Proof.
  destruct (sc_name sc) as [name|].
  - revert h. induction ss as [|s ss IH]; intros h; simpl; [done|].
    unfold bind at 1. simpl. unfold bind at 1. by rewrite IH.
  - by destruct ss.
Qed.

(** The random strategy, field by field of the spec. *)
Lemma selector_jobs_n_random_run (cfg : BenchmarkConfig)
    (sc : selector_config) (h : heap) :
  selector_jobs_n_random (Benchmark_init (Some cfg)) sc h
  = match sc_n sc, sc_selection_seeds sc with
    | None, _ => Raise (KeyError "n")
    | Some n, None => Raise (KeyError "selection_seeds")
    | Some n, Some ss =>
        match sc_name sc with
        | None => match ss with
                  | [] => Ok ([], h)
                  | _ :: _ => Raise (KeyError "name")
                  end
        | Some name =>
            match mapM (built_random_block cfg name n) ss h with
            | Ok (blocks, h') => Ok (concat blocks, h')
            | Raise e => Raise e
            end
        end
    end.
Proof.
  unfold selector_jobs_n_random, bind at 1, getitem. rewrite folders_root.
  unfold ret at 1, bind at 1, getfield at 1.
  destruct (sc_n sc) as [n|]; [|done].
  unfold ret at 1, bind at 1, getfield at 1.
  destruct (sc_selection_seeds sc) as [ss|]; [|done].
  unfold ret at 1, bind at 1. rewrite selector_names_run.
  destruct (sc_name sc) as [name|]; [|by destruct ss].
  change (config (Benchmark_init (Some cfg))) with cfg.
  change (env (Benchmark_init (Some cfg)))
    with {| env_username := username cfg |}.
  set (body := fun (jobs : list SelectorJob) (x : Z * string) => _).
  set (f := fun x : Z * string =>
     let '(selection_seed, name) := x in
     fun h0 : heap =>
       match random_subset (algorithms cfg) n selection_seed with
       | Ok l =>
           let P := product3 (seeds cfg) (openml_tasks cfg) (data_splits cfg)
           in
           Ok (imap (fun p =>
                       built_selector_job cfg name l
                         (h0 + p * (length l + 1))%nat) P,
               (h0 + length P * (length l + 1))%nat)
       | Raise e => Raise e
       end).
  rewrite (for_each_extend f body).
  - rewrite (mapM_zip_fmap f). simpl. reflexivity.
  - intros acc [selection_seed nm] h0. unfold body, f, bind at 1.
    unfold rand_sample, random_subset.
    destruct (sample _ _ _) as [[l g]|e]; [|done].
    apply selector_loop_run.
Qed.

(** The loop of [selector_jobs] concatenates the strategy outputs. *)
Lemma selector_jobs_run (self : Benchmark) (h : heap) :
  selector_jobs self h
  = match mapM (resolve self) (selectors (config self)) h with
    | Ok (selected, h') => Ok (concat selected, h')
    | Raise e => Raise e
    end.
Proof.
  unfold selector_jobs. rewrite (for_each_extend (resolve self)); [done|].
  intros acc sc h0. unfold resolve, bind.
  destruct (getfield _ _ h0) as [[t h1]|e]; [|done].
  destruct (getitem _ _ h1) as [[f h2]|e]; [|done].
  by destruct (f sc h2) as [[ys h3]|e].
Qed.

Lemma mapM_raise_elem {X Y} (f : X -> M Y) (l : list X) (x : X) :
  x ∈ l -> (forall h, exists e, f x h = Raise e) ->
  forall h, exists e, mapM f l h = Raise e.
Proof.
  intros Hx Hf. induction l as [|y l IH]; intros h.
  - by apply elem_of_nil in Hx.
  - simpl. unfold bind at 1. apply elem_of_cons in Hx as [<-|Hx].
    + destruct (Hf h) as [e ->]. by exists e.
    + destruct (f y h) as [[z h']|e]; [|by exists e].
      unfold bind. destruct (IH Hx h') as [e ->]. by exists e.
Qed.

Lemma mapM_raise_first {X Y} (f : X -> M Y) (pre post : list X) (x : X)
    (ys : list Y) (h h' : heap) (e : exn) :
  mapM f pre h = Ok (ys, h') -> f x h' = Raise e ->
  mapM f (pre ++ x :: post) h = Raise e.
Proof.
  revert ys h. induction pre as [|y pre IH]; intros ys h Hpre Hx; simpl.
  - inversion Hpre; subst. unfold bind. by rewrite Hx.
  - simpl in Hpre. unfold bind in Hpre |- *.
    destruct (f y h) as [[z h1]|e1]; [|done].
    destruct (mapM f pre h1) as [[zs h2]|e2] eqn:Hrest; [|done].
    inversion Hpre; subst. by rewrite (IH zs h1 Hrest Hx).
Qed.

Lemma mapM_Forall2 {X Y} (f : X -> M Y) (R : X -> Y -> Prop) (l : list X) :
  (forall x h, x ∈ l -> exists y h', f x h = Ok (y, h') /\ R x y) ->
  forall h, exists ys h', mapM f l h = Ok (ys, h') /\ Forall2 R l ys.
Proof.
  induction l as [|x l IH]; intros Hf h; simpl.
  - exists [], h. split; [done|constructor].
  - destruct (Hf x h) as (y & h1 & Hx & HR); [by left|].
    destruct (IH (fun z h0 Hz => Hf z h0 (list_elem_of_further _ _ _ Hz)) h1)
      as (ys & h2 & Hl & HRs).
    exists (y :: ys), h2. unfold bind. rewrite Hx, Hl.
    split; [done|by constructor].
Qed.

End Selectors.

(** ** Independence from the identities of objects *)

Lemma agree_ret {X Y} (proj : X -> Y) (x1 x2 : X) :
  proj x1 = proj x2 -> agree proj (ret x1) (ret x2).
Proof. intros Hx h1 h2. unfold ret. simpl. by rewrite Hx. Qed.

Lemma agree_raise {X Y} (proj : X -> Y) (e : exn) :
  agree proj (raise e) (raise e).
Proof. by intros h1 h2. Qed.

Lemma agree_bind {X Y A B} (pA : A -> B) (proj : X -> Y) (m1 m2 : M A)
    (k1 k2 : A -> M X) :
  agree pA m1 m2 ->
  (forall a1 a2, pA a1 = pA a2 -> agree proj (k1 a1) (k2 a2)) ->
  agree proj (bind m1 k1) (bind m2 k2).
Proof.
  intros Hm Hk h1 h2. unfold bind. specialize (Hm h1 h2).
  destruct (m1 h1) as [[a1 h1']|e1], (m2 h2) as [[a2 h2']|e2];
    simpl in Hm; try done.
  - apply Hk. by inversion Hm.
  - by inversion Hm.
Qed.

Lemma agree_mapM {X Y A} (proj : X -> Y) (f1 f2 : A -> M X) (l : list A) :
  (forall a, agree proj (f1 a) (f2 a)) ->
  agree (map proj) (mapM f1 l) (mapM f2 l).
Proof.
  intros Hf. induction l as [|a l IH]; simpl.
  - by apply agree_ret.
  - apply (agree_bind proj); [apply Hf|]. intros y1 y2 Hy.
    apply (agree_bind (map proj)); [apply IH|]. intros ys1 ys2 Hys.
    apply agree_ret. simpl. by rewrite Hy, Hys.
Qed.

Lemma agree_weaken {X Y Z} (proj : X -> Y) (proj' : X -> Z) (m1 m2 : M X) :
  (forall x1 x2, proj x1 = proj x2 -> proj' x1 = proj' x2) ->
  agree proj m1 m2 -> agree proj' m1 m2.
Proof.
  intros Hp Hm h1 h2. specialize (Hm h1 h2).
  destruct (m1 h1) as [[x1 h1']|e1], (m2 h2) as [[x2 h2']|e2];
    simpl in *; try done.
  - f_equal. apply Hp. by inversion Hm.
  - by inversion Hm.
Qed.

Lemma agree_ext {X Y} (proj : X -> Y) (m1 m2 m1' m2' : M X) :
  (forall h, m1 h = m1' h) -> (forall h, m2 h = m2' h) ->
  agree proj m1' m2' -> agree proj m1 m2.
Proof. intros H1 H2 Hm h1 h2. rewrite H1, H2. apply Hm. Qed.

Lemma agree_fresh : agree (fun _ : nat => tt) fresh fresh.
Proof. by intros h1 h2. Qed.

Lemma agree_getitem {V} (d : gmap string V) (k : string) :
  agree (fun v : V => v) (getitem d k) (getitem d k).
Proof. intros h1 h2. unfold getitem. by destruct (d !! k). Qed.

Lemma agree_concat {X Y} (proj : X -> Y) (m : M (list (list X))) :
  agree (map (map proj)) m m ->
  agree (map proj)
    (fun h => match m h with
              | Ok (yss, h') => Ok (concat yss, h')
              | Raise e => Raise e
              end)
    (fun h => match m h with
              | Ok (yss, h') => Ok (concat yss, h')
              | Raise e => Raise e
              end).
Proof.
  intros Hm h1 h2. specialize (Hm h1 h2).
  destruct (m h1) as [[x1 h1']|e1], (m h2) as [[x2 h2']|e2];
    simpl in *; try done.
  - inversion Hm as [Hx]. by rewrite !concat_map, Hx.
  - by inversion Hm.
Qed.

Section Idempotence.
Context `{OsPath} `{PRNG} `{Lifecycle}.

Lemma identity_erase (j : TPOTJob) : identity (erase j) = identity j.
Proof. by destruct j. Qed.

Lemma identities_erase {X} (inj : X -> TPOTJob) (er : X -> X)
    (js1 js2 : list X) :
  (forall j, inj (er j) = erase (inj j)) ->
  map er js1 = map er js2 -> identities inj js1 = identities inj js2.
Proof.
  intros Her Hjs. unfold identities. f_equal.
  - by rewrite <- (length_map er js1), Hjs, length_map.
  - assert (Hid : forall js,
              map (fun j => identity (inj j)) js
              = map (fun j => identity (inj j)) (map er js)).
    { intros js. rewrite map_map. apply map_ext. intros j.
      by rewrite Her, identity_erase. }
    by rewrite (Hid js1), (Hid js2), Hjs.
Qed.

Lemma erase_imap_built_selector (cfg : BenchmarkConfig) (name : string)
    (algos : list string) (o : nat -> nat) (P : list (Z * Z * split)) :
  map erase_sj (imap (fun p => built_selector_job cfg name algos (o p)) P)
  = map (fun x => erase_sj (built_selector_job cfg name algos 0%nat x)) P.
Proof.
  revert o. induction P as [|x P IH]; intros o; simpl; [done|]. f_equal.
  - destruct x as [[seed task] split]. unfold erase_sj. simpl. f_equal.
    etrans; [apply (erase_imap_built cfg (fun i => (o 0%nat + i)%nat)
                      (fun algo => (seed, task, split, algo)))|].
    symmetry.
    apply (erase_imap_built cfg (fun i => i)
             (fun algo => (seed, task, split, algo))).
  - apply (IH (o ∘ S)).
Qed.

Lemma agree_algorithm_jobs (cfg : BenchmarkConfig) :
  agree (map erase_saj) (algorithm_jobs (Benchmark_init (Some cfg)))
        (algorithm_jobs (Benchmark_init (Some cfg))).
Proof.
  intros h1 h2.
  pose proof (algorithm_jobs_run cfg h1) as E1.
  pose proof (algorithm_jobs_run cfg h2) as E2.
  simpl in E1, E2. rewrite E1, E2. simpl. f_equal.
  etrans; [apply (erase_imap_built cfg (fun i => (h1 + i)%nat)
                    (fun x => x))|].
  symmetry. apply (erase_imap_built cfg (fun i => (h2 + i)%nat) (fun x => x)).
Qed.

Lemma agree_baseline_jobs (self : Benchmark) :
  agree (map erase_bj) (baseline_jobs self) (baseline_jobs self).
Proof.
  unfold baseline_jobs.
  apply (agree_bind (fun v => v)); [apply agree_getitem|].
  intros root ? <-.
  apply (agree_bind (fun v => v)); [apply agree_getitem|].
  intros scale ? <-. apply agree_mapM. intros [[seed task] split].
  unfold new_BaselineJob.
  apply (agree_bind (fun _ => tt)); [apply agree_fresh|].
  intros o1 o2 _. by apply agree_ret.
Qed.

Lemma agree_selector_jobs_all (cfg : BenchmarkConfig)
    (sc : selector_config) :
  agree (map erase_sj) (selector_jobs_all (Benchmark_init (Some cfg)) sc)
        (selector_jobs_all (Benchmark_init (Some cfg)) sc).
Proof.
  intros h1 h2. rewrite !selector_jobs_all_run.
  destruct (sc_name sc) as [name|]; [|done]. simpl. f_equal.
  set (c := (length (algorithms cfg) + 1)%nat).
  etrans; [apply (erase_imap_built_selector cfg name (algorithms cfg)
                    (fun p => (h1 + p * c)%nat))|].
  symmetry.
  apply (erase_imap_built_selector cfg name (algorithms cfg)
           (fun p => (h2 + p * c)%nat)).
Qed.

Lemma agree_built_random_block (cfg : BenchmarkConfig) (name : string)
    (n s : Z) :
  agree (map erase_sj) (built_random_block cfg name n s)
        (built_random_block cfg name n s).
Proof.
  intros h1 h2. unfold built_random_block.
  destruct (random_subset (algorithms cfg) n s) as [l|e]; [|done].
  simpl. f_equal.
  set (c := (length l + 1)%nat).
  etrans; [apply (erase_imap_built_selector cfg _ l
                    (fun p => (h1 + p * c)%nat))|].
  symmetry.
  apply (erase_imap_built_selector cfg _ l (fun p => (h2 + p * c)%nat)).
Qed.

Lemma agree_selector_jobs_n_random (cfg : BenchmarkConfig)
    (sc : selector_config) :
  agree (map erase_sj)
        (selector_jobs_n_random (Benchmark_init (Some cfg)) sc)
        (selector_jobs_n_random (Benchmark_init (Some cfg)) sc).
Proof.
  eapply agree_ext; [apply selector_jobs_n_random_run..|].
  destruct (sc_n sc) as [n|]; [|done].
  destruct (sc_selection_seeds sc) as [ss|]; [|done].
  destruct (sc_name sc) as [name|]; [|by destruct ss].
  apply (agree_concat erase_sj (mapM (built_random_block cfg name n) ss)).
  apply agree_mapM. intros s. apply agree_built_random_block.
Qed.

Lemma functions_lookup (self : Benchmark) (t : string)
    (f : selector_config -> M (list SelectorJob)) :
  functions self !! t = Some f ->
  (t = "all" /\ f = selector_jobs_all self)
  \/ (t = "top_n" /\ f = selector_jobs_n_top self)
  \/ (t = "n_most_coverage" /\ f = selector_jobs_n_most_coverage self)
  \/ (t = "n_random_selection" /\ f = selector_jobs_n_random self)
  \/ (t = "n_least_overlapping"
      /\ f = selector_jobs_n_least_overlapping self).
Proof.
  intros Hf. unfold functions in Hf.
  repeat (rewrite lookup_insert in Hf; case_decide;
          [inversion Hf; subst; auto 10|]).
  by rewrite lookup_empty in Hf.
Qed.

Lemma agree_resolve (cfg : BenchmarkConfig) (sc : selector_config) :
  agree (map erase_sj) (resolve (Benchmark_init (Some cfg)) sc)
        (resolve (Benchmark_init (Some cfg)) sc).
Proof.
  unfold resolve.
  apply (agree_bind (fun v => v)).
  { intros h1 h2. unfold getfield. by destruct (sc_type sc). }
  intros t ? <-.
  intros h1 h2. unfold bind, getitem.
  destruct (functions _ !! t) as [f|] eqn:Hf; [|done]. unfold ret.
  apply functions_lookup in Hf
    as [[_ ->]|[[_ ->]|[[_ ->]|[[_ ->]|[_ ->]]]]]; try done.
  - apply agree_selector_jobs_all.
  - apply agree_selector_jobs_n_random.
Qed.

Lemma agree_selector_jobs (cfg : BenchmarkConfig) :
  agree (map erase_sj) (selector_jobs (Benchmark_init (Some cfg)))
        (selector_jobs (Benchmark_init (Some cfg))).
Proof.
  eapply agree_ext; [apply selector_jobs_run..|].
  apply (agree_concat erase_sj
           (mapM (resolve (Benchmark_init (Some cfg)))
                 (selectors (config (Benchmark_init (Some cfg)))))).
  apply agree_mapM. intros sc. apply agree_resolve.
Qed.

Lemma agree_jobs (cfg : BenchmarkConfig) :
  agree (map erase) (jobs (Benchmark_init (Some cfg)) None)
        (jobs (Benchmark_init (Some cfg)) None).
Proof.
  unfold jobs.
  apply (agree_bind (map erase_saj)); [apply agree_algorithm_jobs|].
  intros a1 a2 Ha.
  apply (agree_bind (map erase_sj)); [apply agree_selector_jobs|].
  intros s1 s2 Hs.
  apply (agree_bind (map erase_bj)); [apply agree_baseline_jobs|].
  intros b1 b2 Hb. apply agree_ret.
  rewrite !map_app, !map_map.
  change (fun x => erase (Algorithm x))
    with (fun x => Algorithm (erase_saj x)).
  change (fun x => erase (Selector x)) with (fun x => Selector (erase_sj x)).
  change (fun x => erase (Baseline x)) with (fun x => Baseline (erase_bj x)).
  rewrite <- (map_map erase_saj Algorithm a1),
    <- (map_map erase_saj Algorithm a2), <- (map_map erase_sj Selector s1),
    <- (map_map erase_sj Selector s2), <- (map_map erase_bj Baseline b1),
    <- (map_map erase_bj Baseline b2).
  by rewrite Ha, Hs, Hb.
Qed.

(** C10.  For every configuration and any two heaps from which an
    enumeration method is called, the two calls of [algorithm_jobs], of
    [baseline_jobs], of [selector_jobs] and of [jobs()] either raise the same
    exception or return lists of the same length whose identity tuples (seed,
    task, split, time budgets, algorithm or selector name, root path) are
    equal position by position. *)
Theorem enumeration_idempotent (cfg : BenchmarkConfig) (h1 h2 : heap) :
  let self := Benchmark_init (Some cfg) in
  observe (identities Algorithm) (algorithm_jobs self h1)
  = observe (identities Algorithm) (algorithm_jobs self h2)
  /\ observe (identities Baseline) (baseline_jobs self h1)
     = observe (identities Baseline) (baseline_jobs self h2)
  /\ observe (identities Selector) (selector_jobs self h1)
     = observe (identities Selector) (selector_jobs self h2)
  /\ observe (identities (fun j => j)) (jobs self None h1)
     = observe (identities (fun j => j)) (jobs self None h2).
Proof.
  intros self. repeat split.
  - apply (agree_weaken (map erase_saj)); [|apply agree_algorithm_jobs].
    intros js1 js2. by apply identities_erase.
  - apply (agree_weaken (map erase_bj)); [|apply agree_baseline_jobs].
    intros js1 js2. by apply identities_erase.
  - apply (agree_weaken (map erase_sj)); [|apply agree_selector_jobs].
    intros js1 js2. by apply identities_erase.
  - apply (agree_weaken (map erase)); [|apply agree_jobs].
    intros js1 js2. by apply identities_erase.
Qed.

End Idempotence.

(** ** The stand-in generator obeys the laws of [Random.sample] *)

Lemma lcg_draw_sample (k : nat) (g : Z) (pool : list string) :
  (k <= length pool)%nat ->
  length (lcg_draw k g pool).1 = k /\ (lcg_draw k g pool).1 ⊆+ pool.
Proof.
  revert g pool. induction k as [|k IH]; intros g pool Hk; simpl.
  { split; [done|]. apply submseteq_nil_l. }
  set (g' := lcg_next g).
  set (j := Z.to_nat (g' mod Z.of_nat (length pool))).
  assert (Hj : (j < length pool)%nat).
  { unfold j. pose proof (Z.mod_pos_bound g' (Z.of_nat (length pool))). lia. }
  destruct (lookup_lt_is_Some_2 pool j Hj) as [x Hx]. rewrite Hx.
  destruct (IH g' (delete j pool)) as [Hlen Hsub].
  { rewrite length_delete by eauto. lia. }
  destruct (lcg_draw k g' (delete j pool)) as [l g'']. simpl in *.
  split; [by rewrite Hlen|].
  rewrite (delete_Permutation pool j x Hx). by apply submseteq_skip.
Qed.

Lemma lcg_prng_laws : PRNGLaws lcg_prng.
Proof.
  split; simpl; unfold lcg_sample; intros g pop k Hk.
  - exists "Sample larger than population or is negative".
    destruct (0 <=? k) eqn:H0, (k <=? Z.of_nat (length pop)) eqn:H1;
      simpl; try done. lia.
  - destruct (0 <=? k) eqn:H0, (k <=? Z.of_nat (length pop)) eqn:H1;
      simpl; try lia.
    destruct (lcg_draw_sample (Z.to_nat k) g pop) as [Hlen Hsub]; [lia|].
    destruct (lcg_draw (Z.to_nat k) g pop) as [l g']. simpl in *.
    exists l, g'. split; [done|]. split; [lia|done].
Qed.

(** ** Resolution of the selector specs *)

Lemma mapM_Raise_split {X Y} (f : X -> M Y) (l : list X) (h : heap)
    (e : exn) :
  mapM f l h = Raise e ->
  exists pre x post ys h',
    l = pre ++ x :: post /\ mapM f pre h = Ok (ys, h')
    /\ f x h' = Raise e.
Proof.
  revert h. induction l as [|x l IH]; intros h Hrun; simpl in Hrun; [done|].
  unfold bind in Hrun. destruct (f x h) as [[y h1]|e1] eqn:Hx.
  - destruct (mapM f l h1) as [[zs h2]|e2] eqn:Hl; [done|].
    inversion Hrun; subst e2.
    destruct (IH h1 Hl) as (pre & x' & post & ys & h' & -> & Hpre & Hx').
    exists (x :: pre), x', post, (y :: ys), h'. split; [done|].
    split; [|done]. simpl. unfold bind. by rewrite Hx, Hpre.
  - inversion Hrun; subst e1. by exists [], x, l, [], h.
Qed.


Section Resolution.
Context `{OsPath} `{PRNG} `{Lifecycle}.

Lemma built_selector_job_view (cfg : BenchmarkConfig) (name : string)
    (algos : list string) (h : heap) (x : Z * Z * split) :
  let j := built_selector_job cfg name algos h x in
  (sj_name j, (sj_seed j, sj_task j, sj_split j),
   map saj_algo (sj_algorithm_jobs j)) = (name, x, algos).
Proof.
  destruct x as [[seed task] split]. simpl. f_equal.
  change (map ?f ?l) with (f <$> l). rewrite fmap_imap.
  rewrite <- (list_fmap_id algos) at 2. rewrite <- imap_const.
  by apply imap_ext.
Qed.

(** One call of the random strategy: a block of selector jobs per
    selection seed, over the list that [sample] returns on a generator created
    with the seed [s * n]. *)
Lemma n_random_blocks (laws : PRNGLaws _)
    (cfg : BenchmarkConfig) (sc : selector_config) (name : string) (n : Z)
    (ss : list Z) (h : heap) :
  sc_name sc = Some name -> sc_n sc = Some n ->
  sc_selection_seeds sc = Some ss ->
  0 <= n <= Z.of_nat (length (algorithms cfg)) ->
  exists blocks h',
    selector_jobs_n_random (Benchmark_init (Some cfg)) sc h
    = Ok (concat blocks, h')
    /\ Forall2 (fun s block =>
          exists l g,
            sample (Random (s * n)) (algorithms cfg) n = Ok (l, g)
            /\ Z.of_nat (length l) = n
            /\ l ⊆+ algorithms cfg
            /\ map (fun j => (sj_name j, (sj_seed j, sj_task j, sj_split j),
                              map saj_algo (sj_algorithm_jobs j))) block
               = map (fun x => (name +:+ "_" +:+ pretty s, x, l))
                     (lex_product3 (seeds cfg) (openml_tasks cfg)
                                   (data_splits cfg))) ss blocks.
Proof.
  intros Hname Hn Hss Hrange.
  rewrite selector_jobs_n_random_run, Hn, Hss, Hname.
  destruct (mapM_Forall2 (built_random_block cfg name n)
    (fun s block =>
       exists l g,
         sample (Random (s * n)) (algorithms cfg) n = Ok (l, g)
         /\ Z.of_nat (length l) = n
         /\ l ⊆+ algorithms cfg
         /\ map (fun j => (sj_name j, (sj_seed j, sj_task j, sj_split j),
                           map saj_algo (sj_algorithm_jobs j))) block
            = map (fun x => (name +:+ "_" +:+ pretty s, x, l))
                  (lex_product3 (seeds cfg) (openml_tasks cfg)
                                (data_splits cfg))) ss) with h
    as (blocks & h' & Hrun & Hblocks).
  - intros s h0 _. unfold built_random_block, random_subset.
    destruct (sample_in_range (Random (s * n)) (algorithms cfg) n Hrange)
      as (l & g & Hsample & Hlen & Hsub).
    rewrite Hsample. eexists _, _. split; [reflexivity|].
    exists l, g. repeat split; [done..|].
    rewrite <- product3_lex.
    change (map ?f (imap ?F ?l)) with (f <$> imap F l). rewrite fmap_imap.
    rewrite <- imap_const. apply imap_ext. intros p x _.
    apply built_selector_job_view.
  - exists blocks, h'. by rewrite Hrun.
Qed.

(** C3.  Take two calls of the random strategy, from any two heaps, on
    configurations with the same algorithm list [A] and on random selector
    specs with the same count [0 <= n <= |A|] (names and selection seeds may
    differ).  Each call succeeds and returns, for each of its selection seeds
    [s] in turn, one block of selector jobs: one job named [name_s] per
    element of seeds x tasks x splits, in lexicographic nesting, and the
    algorithms of the dependencies of every job of the block are, in this
    order, the list that [sample] returns on a generator created with the seed
    [s * n], which has [n] elements from distinct positions of [A].  For a
    selection seed that both specs hold, at whatever positions, the jobs of
    the two blocks depend on the same algorithms in the same order. *)
Theorem n_random_subset_reproducible (laws : PRNGLaws _)
    (cfg1 cfg2 : BenchmarkConfig) (sc1 sc2 : selector_config)
    (name1 name2 : string) (n : Z) (ss1 ss2 : list Z) (h1 h2 : heap) :
  algorithms cfg1 = algorithms cfg2 ->
  sc_name sc1 = Some name1 -> sc_n sc1 = Some n ->
  sc_selection_seeds sc1 = Some ss1 ->
  sc_name sc2 = Some name2 -> sc_n sc2 = Some n ->
  sc_selection_seeds sc2 = Some ss2 ->
  0 <= n <= Z.of_nat (length (algorithms cfg1)) ->
  exists blocks1 h1' blocks2 h2',
    selector_jobs_n_random (Benchmark_init (Some cfg1)) sc1 h1
    = Ok (concat blocks1, h1')
    /\ selector_jobs_n_random (Benchmark_init (Some cfg2)) sc2 h2
       = Ok (concat blocks2, h2')
    /\ length blocks1 = length ss1 /\ length blocks2 = length ss2
    /\ Forall2 (fun s block =>
          exists l g,
            sample (Random (s * n)) (algorithms cfg1) n = Ok (l, g)
            /\ Z.of_nat (length l) = n
            /\ l ⊆+ algorithms cfg1
            /\ map (fun j => (sj_name j, (sj_seed j, sj_task j, sj_split j),
                              map saj_algo (sj_algorithm_jobs j))) block
               = map (fun x => (name1 +:+ "_" +:+ pretty s, x, l))
                     (lex_product3 (seeds cfg1) (openml_tasks cfg1)
                                   (data_splits cfg1))) ss1 blocks1
    /\ Forall2 (fun s block =>
          exists l g,
            sample (Random (s * n)) (algorithms cfg2) n = Ok (l, g)
            /\ Z.of_nat (length l) = n
            /\ l ⊆+ algorithms cfg2
            /\ map (fun j => (sj_name j, (sj_seed j, sj_task j, sj_split j),
                              map saj_algo (sj_algorithm_jobs j))) block
               = map (fun x => (name2 +:+ "_" +:+ pretty s, x, l))
                     (lex_product3 (seeds cfg2) (openml_tasks cfg2)
                                   (data_splits cfg2))) ss2 blocks2
    /\ forall i1 i2 s B1 B2,
         ss1 !! i1 = Some s -> ss2 !! i2 = Some s ->
         blocks1 !! i1 = Some B1 -> blocks2 !! i2 = Some B2 ->
         exists l g,
           sample (Random (s * n)) (algorithms cfg1) n = Ok (l, g)
           /\ Z.of_nat (length l) = n
           /\ l ⊆+ algorithms cfg1
           /\ Forall (fun j => map saj_algo (sj_algorithm_jobs j) = l) B1
           /\ Forall (fun j => map saj_algo (sj_algorithm_jobs j) = l) B2.
Proof.
  intros HA Hname1 Hn1 Hss1 Hname2 Hn2 Hss2 Hrange.
  destruct (n_random_blocks laws cfg1 sc1 name1 n ss1 h1)
    as (blocks1 & h1' & Hrun1 & Hb1); [done..|].
  destruct (n_random_blocks laws cfg2 sc2 name2 n ss2 h2)
    as (blocks2 & h2' & Hrun2 & Hb2); [done..|by rewrite <- HA|].
  exists blocks1, h1', blocks2, h2'.
  split; [exact Hrun1|]. split; [exact Hrun2|].
  split; [symmetry; by eapply Forall2_length|].
  split; [symmetry; by eapply Forall2_length|].
  split; [exact Hb1|]. split; [exact Hb2|].
  intros i1 i2 s B1 B2 Hs1 Hs2 HB1 HB2.
  destruct (Forall2_lookup_lr _ _ _ _ _ _ Hb1 Hs1 HB1)
    as (l & g & Hsample & Hlen & Hsub & Hview1).
  destruct (Forall2_lookup_lr _ _ _ _ _ _ Hb2 Hs2 HB2)
    as (l' & g' & Hsample' & _ & _ & Hview2).
  rewrite <- HA, Hsample in Hsample'. inversion Hsample'; subst l' g'.
  exists l, g. split; [done|]. split; [done|]. split; [done|].
  assert (Hall : forall name (P : list (Z * Z * split)) B,
            map (fun j => (sj_name j, (sj_seed j, sj_task j, sj_split j),
                           map saj_algo (sj_algorithm_jobs j))) B
            = map (fun x => (name, x, l)) P ->
            Forall (fun j => map saj_algo (sj_algorithm_jobs j) = l) B).
  { intros name P B HB. apply Forall_forall. intros j Hj.
    apply (list_elem_of_fmap_2
             (fun j => (sj_name j, (sj_seed j, sj_task j, sj_split j),
                        map saj_algo (sj_algorithm_jobs j)))) in Hj.
    change (?f <$> ?l) with (map f l) in Hj. rewrite HB in Hj.
    change (map ?f ?l) with (f <$> l) in Hj.
    apply list_elem_of_fmap in Hj as (x & Hx & _). by inversion Hx. }
  split; eapply Hall; eassumption.
Qed.

(** C5, as amended.  For every configuration, a selector spec whose type
    tag [t] is not one of the five keys of [functions] makes its iteration of
    the loop of [selector_jobs] raise [KeyError t], whatever the heap.  A
    configuration that contains such a spec makes [selector_jobs] raise and
    return no list, partial or whole, and the exception is that of the first
    spec that raises: [KeyError t] when the specs before the spec of type [t]
    resolve, and the exception of an earlier spec when one raises after the
    specs before it resolved. *)
Theorem unknown_selector_type_raises (cfg : BenchmarkConfig)
    (sc : selector_config) (t : string) :
  sc_type sc = Some t ->
  t ∉ ["all"; "top_n"; "n_least_overlapping"; "n_most_coverage";
       "n_random_selection"] ->
  let self := Benchmark_init (Some cfg) in
  (forall h, resolve self sc h = Raise (KeyError t))
  /\ (sc ∈ selectors cfg -> forall h, exists e, selector_jobs self h = Raise e)
  /\ (forall pre post selected h h',
        selectors cfg = pre ++ sc :: post ->
        mapM (resolve self) pre h = Ok (selected, h') ->
        selector_jobs self h = Raise (KeyError t))
  /\ (sc ∈ selectors cfg ->
      forall h, exists e pre first post selected h',
        selector_jobs self h = Raise e
        /\ selectors cfg = pre ++ first :: post
        /\ mapM (resolve self) pre h = Ok (selected, h')
        /\ resolve self first h' = Raise e)
  /\ (forall pre earlier post selected h h' e,
        selectors cfg = pre ++ earlier :: post ->
        mapM (resolve self) pre h = Ok (selected, h') ->
        resolve self earlier h' = Raise e ->
        selector_jobs self h = Raise e).
Proof.
  intros Htype Hunknown self.
  assert (Hres : forall h, resolve self sc h = Raise (KeyError t)).
  { intros h. unfold resolve, bind, getfield, getitem. rewrite Htype.
    unfold ret at 1.
    destruct (functions self !! t) as [f|] eqn:Hf; [|done].
    exfalso. apply Hunknown.
    apply functions_lookup in Hf
      as [[-> _]|[[-> _]|[[-> _]|[[-> _]|[-> _]]]]]; set_solver. }
  assert (Hfirst : forall pre earlier post selected h h' e,
             selectors cfg = pre ++ earlier :: post ->
             mapM (resolve self) pre h = Ok (selected, h') ->
             resolve self earlier h' = Raise e ->
             selector_jobs self h = Raise e).
  { intros pre earlier post selected h h' e Hsel Hpre He.
    rewrite selector_jobs_run. change (config self) with cfg. rewrite Hsel.
    by rewrite (mapM_raise_first _ pre post earlier selected h h' e). }
  assert (Hraise : sc ∈ selectors cfg ->
                   forall h, exists e,
                     mapM (resolve self) (selectors cfg) h = Raise e).
  { intros Hin h.
    apply (mapM_raise_elem (resolve self) (selectors cfg) sc Hin).
    intros h0. by exists (KeyError t). }
  split; [exact Hres|]. split; [|split; [|split; [|exact Hfirst]]].
  - intros Hin h. destruct (Hraise Hin h) as [e He].
    exists e. rewrite selector_jobs_run. change (config self) with cfg.
    by rewrite He.
  - intros pre post selected h h' Hsel Hpre.
    by apply (Hfirst pre sc post selected h h').
  - intros Hin h. destruct (Hraise Hin h) as [e He].
    destruct (mapM_Raise_split _ _ _ _ He)
      as (pre & first & post & selected & h' & Hsel & Hpre & Hfst).
    exists e, pre, first, post, selected, h'.
    split; [|done]. by apply (Hfirst pre first post selected h h').
Qed.

(** C6, as amended.  For every configuration with algorithm list [A] and
    every random selector spec with a name, at least one selection seed and a
    count [n > |A|], the draw for the first selection seed raises
    [ValueError], and so does [selector_jobs_n_random]; nothing catches the
    exception: a configuration that holds the spec under the type
    [n_random_selection] makes [selector_jobs] and [jobs] raise, whatever the
    filter, and when the specs before it resolve, [selector_jobs] raises that
    very [ValueError]. *)
Theorem n_random_too_many_raises (laws : PRNGLaws _) (cfg : BenchmarkConfig)
    (sc : selector_config) (name : string) (n s : Z) (ss : list Z) :
  sc_name sc = Some name -> sc_n sc = Some n ->
  sc_selection_seeds sc = Some (s :: ss) ->
  Z.of_nat (length (algorithms cfg)) < n ->
  let self := Benchmark_init (Some cfg) in
  exists msg,
    sample (Random (s * n)) (algorithms cfg) n = Raise (ValueError msg)
    /\ (forall h, selector_jobs_n_random self sc h = Raise (ValueError msg))
    /\ (sc_type sc = Some "n_random_selection" -> sc ∈ selectors cfg ->
        forall filter_by h,
          (exists e, selector_jobs self h = Raise e)
          /\ (exists e, jobs self filter_by h = Raise e))
    /\ (sc_type sc = Some "n_random_selection" ->
        forall pre post selected h h',
          selectors cfg = pre ++ sc :: post ->
          mapM (resolve self) pre h = Ok (selected, h') ->
          selector_jobs self h = Raise (ValueError msg)).
Proof.
  intros Hname Hn Hss Hmany self.
  destruct (sample_out_of_range (Random (s * n)) (algorithms cfg) n)
    as [msg Hmsg]; [by right|].
  assert (Hrun : forall h,
             selector_jobs_n_random self sc h = Raise (ValueError msg)).
  { intros h. unfold self.
    rewrite selector_jobs_n_random_run, Hn, Hss, Hname. simpl.
    unfold bind, built_random_block, random_subset. by rewrite Hmsg. }
  assert (Hres : sc_type sc = Some "n_random_selection" ->
                 forall h, resolve self sc h = Raise (ValueError msg)).
  { intros Htype h. unfold resolve, bind, getfield. rewrite Htype.
    unfold ret at 1. apply Hrun. }
  assert (Hsel : sc_type sc = Some "n_random_selection" ->
                 sc ∈ selectors cfg ->
                 forall h, exists e, selector_jobs self h = Raise e).
  { intros Htype Hin h. rewrite selector_jobs_run.
    destruct (mapM_raise_elem (resolve self) (selectors cfg) sc Hin) with h
      as [e He]; [by intros h0; exists (ValueError msg); apply Hres|].
    exists e. change (config self) with cfg. by rewrite He. }
  exists msg. split; [exact Hmsg|]. split; [exact Hrun|]. split.
  - intros Htype Hin filter_by h. split; [by apply Hsel|].
    unfold jobs, bind.
    pose proof (algorithm_jobs_run cfg h) as Ha. simpl in Ha.
    fold self in Ha. rewrite Ha.
    destruct (Hsel Htype Hin (h + length (product4 (seeds cfg)
                (openml_tasks cfg) (data_splits cfg) (algorithms cfg)))%nat)
      as [e He].
    exists e. by rewrite He.
  - intros Htype pre post selected h h' Hpre Hok. rewrite selector_jobs_run.
    change (config self) with cfg. rewrite Hpre.
    rewrite (mapM_raise_first _ pre post sc selected h h' (ValueError msg));
      [done|done|by apply Hres].
Qed.

(** C9.  For every configuration and every selector spec whose type is
    [top_n], [n_least_overlapping] or [n_most_coverage], the strategy that
    [functions] holds for the type returns the empty list, raises nothing and
    allocates nothing, and so does the iteration of [selector_jobs] for the
    spec. *)
Theorem placeholder_strategies_empty (cfg : BenchmarkConfig)
    (sc : selector_config) (t : string) (h : heap) :
  sc_type sc = Some t ->
  t ∈ ["top_n"; "n_least_overlapping"; "n_most_coverage"] ->
  let self := Benchmark_init (Some cfg) in
  exists get_selector,
    functions self !! t = Some get_selector
    /\ get_selector sc h = Ok ([], h)
    /\ resolve self sc h = Ok ([], h).
Proof.
  intros Htype Ht self. unfold resolve, bind, getfield. rewrite Htype.
  unfold ret at 1.
  repeat (apply elem_of_cons in Ht as [->|Ht];
          [eexists; split; [reflexivity|]; by split|]).
  by apply elem_of_nil in Ht.
Qed.

(** C8.  For every configuration, [jobs()] is the sequence of the three
    collections: it runs [algorithm_jobs], then the strategy of each selector
    spec in the order of the configuration, then [baseline_jobs], raises the
    first exception that one of them raises, and otherwise returns the
    algorithm jobs, followed by the concatenation of the outputs of the
    strategies, each in its own order, followed by the baseline jobs. *)
Theorem jobs_concatenation (cfg : BenchmarkConfig) (h : heap) :
  let self := Benchmark_init (Some cfg) in
  jobs self None h
  = (algorithm_jobs_ <- algorithm_jobs self ;;
     selected <- mapM (resolve self) (selectors cfg) ;;
     baseline_jobs_ <- baseline_jobs self ;;
     ret (map Algorithm algorithm_jobs_ ++ map Selector (concat selected)
            ++ map Baseline baseline_jobs_)) h.
Proof.
  intros self. unfold jobs, bind.
  destruct (algorithm_jobs self h) as [[a h1]|e]; [|done].
  rewrite selector_jobs_run. change (config self) with cfg.
  destruct (mapM (resolve self) (selectors cfg) h1) as [[selected h2]|e];
    [|done].
  by destruct (baseline_jobs self h2) as [[b h3]|e].
Qed.

Lemma filter_sublist {X} (f : X -> bool) (l : list X) :
  List.filter f l `sublist_of` l.
Proof.
  induction l as [|x l IH]; simpl; [constructor|].
  destruct (f x); by constructor.
Qed.

(** C7.  For every configuration, every lifecycle predicate named in
    [job_filters] with the query [q] of the backend, and every heap:
    [jobs(filter_by=name)] raises what [jobs()] raises, and otherwise returns
    the jobs of [jobs()] on which [q] holds, in the same order: a sublist of
    [jobs()] whose members all satisfy [q], while no job of [jobs()] left out
    satisfies [q]. *)
Theorem jobs_filter_by (cfg : BenchmarkConfig) (name : string)
    (q : TPOTJob -> bool) (h : heap) :
  (name, q) ∈ [("ready", ready); ("failed", failed); ("blocked", blocked);
               ("pending", pending); ("running", running);
               ("complete", complete); ("in_progress", in_progress)] ->
  let self := Benchmark_init (Some cfg) in
  job_filters !! name = Some q
  /\ match jobs self None h with
     | Ok (js, h') =>
         exists fs,
           jobs self (Some name) h = Ok (fs, h')
           /\ fs = List.filter q js
           /\ fs `sublist_of` js
           /\ Forall (fun j => q j = true) fs
           /\ (forall j, j ∈ js -> j ∉ fs -> q j = false)
     | Raise e => jobs self (Some name) h = Raise e
     end.
Proof.
  intros Hname self.
  assert (Hq : job_filters !! name = Some q
               /\ negb (String.eqb name "") = true).
  { repeat (apply elem_of_cons in Hname as [[= -> ->]|Hname];
            [split; reflexivity|]).
    by apply elem_of_nil in Hname. }
  destruct Hq as [Hq Hne]. split; [exact Hq|].
  unfold jobs, bind.
  destruct (algorithm_jobs self h) as [[a h1]|e]; [|done].
  destruct (selector_jobs self h1) as [[sel h2]|e]; [|done].
  destruct (baseline_jobs self h2) as [[b h3]|e]; [|done].
  rewrite Hne. unfold getitem. rewrite Hq. unfold ret.
  set (js := map Algorithm a ++ map Selector sel ++ map Baseline b).
  exists (List.filter q js). split; [done|]. split; [done|].
  split; [apply filter_sublist|]. split.
  - apply Forall_forall. intros j Hj. apply list_elem_of_In in Hj.
    by apply filter_In in Hj as [_ Hj].
  - intros j Hj Hout. destruct (q j) eqn:Hqj; [|done].
    exfalso. apply Hout. apply list_elem_of_In, filter_In.
    split; [by apply list_elem_of_In|done].
Qed.

End Resolution.

(** ** The theorems on the example configurations *)

(** The "all" selector of [small_config]: two selector jobs, one per seed. *)
Lemma selector_jobs_all_dependencies_small :
  exists js h',
    selector_jobs_all (H := posix_paths)
      (Benchmark_init (H := posix_paths) (Some small_config)) all_selector
      0%nat
    = Ok (js, h')
    /\ map (fun j => (sj_seed j, sj_task j, sj_split j)) js
       = [(1, 3, (0.5, 0.25, 0.25)%float); (2, 3, (0.5, 0.25, 0.25)%float)].
Proof.
  destruct (selector_jobs_all_dependencies (H := posix_paths) small_config
              all_selector "ALL" 0%nat)
    as (js & h' & Hrun & Hkey & _); [reflexivity|].
  exists js, h'. split; [exact Hrun|exact Hkey].
Defined.

(** Two calls of the random strategy on [small_config], from the heaps 0
    and 20: two blocks each, and the blocks of the selection seed 2 run the
    same algorithms. *)
Lemma n_random_subset_reproducible_small :
  exists blocks1 h1' blocks2 h2',
    selector_jobs_n_random (H := posix_paths) (H0 := lcg_prng)
      (Benchmark_init (H := posix_paths) (Some small_config)) ran2_selector
      0%nat
    = Ok (concat blocks1, h1')
    /\ selector_jobs_n_random (H := posix_paths) (H0 := lcg_prng)
         (Benchmark_init (H := posix_paths) (Some small_config)) ran2_selector
         20%nat
       = Ok (concat blocks2, h2')
    /\ length blocks1 = 2%nat /\ length blocks2 = 2%nat
    /\ forall B1 B2 j1 j2,
         blocks1 !! 1%nat = Some B1 -> blocks2 !! 1%nat = Some B2 ->
         j1 ∈ B1 -> j2 ∈ B2 ->
         map saj_algo (sj_algorithm_jobs j1)
         = map saj_algo (sj_algorithm_jobs j2).
Proof.
  destruct (n_random_subset_reproducible (H := posix_paths) (H0 := lcg_prng)
              lcg_prng_laws small_config small_config ran2_selector
              ran2_selector "RAN2" "RAN2" 2 [1; 2] [1; 2] 0%nat 20%nat)
    as (blocks1 & h1' & blocks2 & h2' & Hrun1 & Hrun2 & Hlen1 & Hlen2
        & _ & _ & Hsame);
    [reflexivity..|simpl; lia|].
  exists blocks1, h1', blocks2, h2'.
  split; [exact Hrun1|]. split; [exact Hrun2|].
  split; [exact Hlen1|]. split; [exact Hlen2|].
  intros B1 B2 j1 j2 HB1 HB2 Hj1 Hj2.
  destruct (Hsame 1%nat 1%nat 2 B1 B2 eq_refl eq_refl HB1 HB2)
    as (l & g & _ & _ & _ & H1 & H2).
  rewrite Forall_forall in H1, H2. by rewrite (H1 j1 Hj1), (H2 j2 Hj2).
Defined.

(** The selector of type [bogus] in [bogus_config] comes after one that
    resolves: [selector_jobs] raises [KeyError "bogus"]. *)
Lemma unknown_selector_type_raises_bogus :
  selector_jobs (H := posix_paths) (H0 := lcg_prng)
    (Benchmark_init (H := posix_paths) (Some bogus_config)) 0%nat
  = Raise (KeyError "bogus").
Proof.
  destruct (unknown_selector_type_raises (H := posix_paths) (H0 := lcg_prng)
              bogus_config bogus_selector "bogus")
    as (_ & _ & Hfirst & _).
  - reflexivity.
  - intros Hin. repeat (apply elem_of_cons in Hin as [Heq|Hin]; [done|]).
    by apply elem_of_nil in Hin.
  - eapply (Hfirst [all_selector] []); [reflexivity|].
    vm_compute. reflexivity.
Defined.

(** C5, as stated, fails twice.  A configuration that holds a selector of
    the unknown type [bogus] after an "all" selector without a name raises the
    [KeyError 'name'] of the earlier selector, not the error of the unknown
    type.  And the error of an unknown type is no error of its own: a selector
    whose type tag is the string [name] raises [KeyError 'name'], the very
    exception that the "all" selector without a name raises. *)
Lemma unknown_selector_type_after_failure :
  let run := fun selector_specs =>
    selector_jobs (H := posix_paths) (H0 := lcg_prng)
      (Benchmark_init (H := posix_paths)
         (Some (small_config_with selector_specs))) 0%nat in
  sc_type bogus_selector = Some "bogus"
  /\ run [nameless_all_selector; bogus_selector] = Raise (KeyError "name")
  /\ run [nameless_all_selector; bogus_selector] <> Raise (KeyError "bogus")
  /\ sc_type name_tag_selector = Some "name"
  /\ sc_type nameless_all_selector = Some "all"
  /\ run [name_tag_selector] = Raise (KeyError "name")
  /\ run [name_tag_selector] = run [nameless_all_selector].
Proof.
  intros run.
  assert (Hfirst : run [nameless_all_selector; bogus_selector]
                   = Raise (KeyError "name")) by (vm_compute; reflexivity).
  assert (Htag : run [name_tag_selector] = Raise (KeyError "name"))
    by (vm_compute; reflexivity).
  assert (Hall : run [nameless_all_selector] = Raise (KeyError "name"))
    by (vm_compute; reflexivity).
  split; [reflexivity|]. split; [exact Hfirst|].
  split; [rewrite Hfirst; discriminate|].
  split; [reflexivity|]. split; [reflexivity|]. split; [exact Htag|].
  by rewrite Htag, Hall.
Qed.

(** The random selector of [starved_config] asks for five of three
    algorithms. *)
Lemma n_random_too_many_raises_starved :
  exists msg,
    selector_jobs_n_random (H := posix_paths) (H0 := lcg_prng)
      (Benchmark_init (H := posix_paths) (Some starved_config)) ran5_selector
      0%nat
    = Raise (ValueError msg)
    /\ exists e,
         jobs (H := posix_paths) (H0 := lcg_prng) (H1 := even_seed_backend)
           (Benchmark_init (H := posix_paths) (Some starved_config)) None
           0%nat
         = Raise e.
Proof.
  destruct (n_random_too_many_raises (H := posix_paths) (H0 := lcg_prng)
              (H1 := even_seed_backend) lcg_prng_laws starved_config
              ran5_selector "RAN5" 5 1 [])
    as (msg & _ & Hrun & Hgraph & _); [reflexivity..|simpl; lia|].
  exists msg. split; [apply Hrun|].
  apply Hgraph; [reflexivity|]. right. left.
Defined.

(** C6, as stated, fails on [starved_config]: the random selector cannot
    draw five of three algorithms, and the exception is fatal for the whole
    graph: [jobs()] returns no job, although the algorithm jobs and the
    baseline jobs can be enumerated. *)
Lemma n_random_too_many_fatal_for_graph :
  let self := Benchmark_init (H := posix_paths) (Some starved_config) in
  Z.of_nat (length (algorithms starved_config)) < 5
  /\ (exists js h', algorithm_jobs (H := posix_paths) self 0%nat = Ok (js, h'))
  /\ (exists js h', baseline_jobs (H := posix_paths) self 0%nat = Ok (js, h'))
  /\ jobs (H := posix_paths) (H0 := lcg_prng) (H1 := even_seed_backend)
          self None 0%nat
     = Raise (ValueError "Sample larger than population or is negative")
  /\ ~ (exists js h',
          jobs (H := posix_paths) (H0 := lcg_prng) (H1 := even_seed_backend)
               self None 0%nat
          = Ok (js, h')).
Proof.
  intros self.
  assert (Hjobs : jobs (H := posix_paths) (H0 := lcg_prng)
                       (H1 := even_seed_backend) self None 0%nat
                  = Raise (ValueError
                      "Sample larger than population or is negative"))
    by (vm_compute; reflexivity).
  split; [simpl; lia|].
  split; [eexists _, _; vm_compute; reflexivity|].
  split; [eexists _, _; vm_compute; reflexivity|].
  split; [exact Hjobs|].
  intros (js & h' & Hok). rewrite Hjobs in Hok. discriminate.
Qed.

(** The selector [TOP2] of [small_config]. *)
Lemma placeholder_strategies_empty_top2 :
  resolve (H := posix_paths) (H0 := lcg_prng)
    (Benchmark_init (H := posix_paths) (Some small_config)) top2_selector
    7%nat
  = Ok ([], 7%nat).
Proof.
  destruct (placeholder_strategies_empty (H := posix_paths) (H0 := lcg_prng)
              small_config top2_selector "top_n" 7%nat)
    as (f & _ & _ & Hres); [reflexivity|left|exact Hres].
Defined.

(** [jobs(filter_by='complete')] on [small_config], in a backend where the
    leaf jobs of even seed are complete: the three algorithm jobs and the
    baseline job of the seed 2 remain. *)
Lemma jobs_filter_by_complete :
  exists fs h',
    jobs (H := posix_paths) (H0 := lcg_prng) (H1 := even_seed_backend)
      (Benchmark_init (H := posix_paths) (Some small_config))
      (Some "complete") 0%nat
    = Ok (fs, h')
    /\ length fs = 4%nat.
Proof.
  pose proof (jobs_filter_by (H := posix_paths) (H0 := lcg_prng)
                (H1 := even_seed_backend) small_config "complete"
                (complete (Lifecycle := even_seed_backend)) 0%nat) as Hf.
  destruct Hf as [_ Hf].
  { do 5 right. left. }
  destruct (jobs (H := posix_paths) (H0 := lcg_prng)
              (H1 := even_seed_backend)
              (Benchmark_init (H := posix_paths) (Some small_config)) None
              0%nat) as [[js h']|e] eqn:Hjs.
  - destruct Hf as (fs & Hrun & -> & _). eexists _, h'.
    split; [exact Hrun|].
    vm_compute in Hjs. inversion Hjs; subst js. vm_compute. reflexivity.
  - vm_compute in Hjs. discriminate.
Defined.

(** ** More on the baseline jobs *)

Section Baselines.
Context `{OsPath}.

Lemma baseline_jobs_run (cfg : BenchmarkConfig) (h : heap) :
  let P := product3 (seeds cfg) (openml_tasks cfg) (data_splits cfg) in
  baseline_jobs (Benchmark_init (Some cfg)) h
  = match baselines cfg !! "scale" with
    | Some scale =>
        Ok (imap (fun i => built_baseline_job cfg scale (h + i)%nat) P,
            (h + length P)%nat)
    | None => Raise (KeyError "scale")
    end.
Proof.
  intros P. unfold baseline_jobs, bind at 1, getitem at 1.
  rewrite folders_root. unfold ret at 1, bind at 1, getitem.
  change (config (Benchmark_init (Some cfg))) with cfg.
  destruct (baselines cfg !! "scale") as [scale|]; [|done].
  unfold ret at 1. fold P.
  fold (rescaled_times (times_in_mins cfg) scale).
  rewrite (mapM_allocating 1 _ (built_baseline_job cfg scale)).
  - do 2 f_equal; [|lia].
    apply imap_ext. intros i x _. simpl. f_equal. lia.
  - intros [[seed task] split] h0.
    unfold new_BaselineJob, bind, fresh, ret. simpl. do 2 f_equal. lia.
Qed.

Lemma elem_of_rescaled_times (times : list Z) (scale x : Z) :
  x ∈ rescaled_times times scale
  <-> exists i t, 1 <= i <= scale /\ t ∈ times /\ x = t * i.
Proof.
  unfold rescaled_times. rewrite elem_of_fold_union. split.
  - intros [Hx|(i & t & Hi & Ht & ->)]; [by apply elem_of_empty in Hx|].
    apply elem_of_range in Hi. exists i, t. repeat split; [lia..|done].
  - intros (i & t & Hi & Ht & ->). right. exists i, t.
    split; [apply elem_of_range; lia|done].
Qed.

Lemma built_baseline_job_times (cfg : BenchmarkConfig) (scale : Z)
    (P : list (Z * Z * split)) (o : nat -> nat) (j : BaselineJob) :
  j ∈ imap (fun i => built_baseline_job cfg scale (o i)) P ->
  bj_times j = elements (rescaled_times (times_in_mins cfg) scale).
Proof.
  intros Hj. apply list_elem_of_lookup in Hj as [i Hi].
  rewrite list_lookup_imap in Hi.
  destruct (P !! i) as [[[seed task] split]|]; simpl in Hi; [|done].
  by inversion Hi.
Qed.

(** X1.  [baseline_jobs] raises exactly when [config['baselines']] has no key
    [scale], and then it raises [KeyError 'scale']. *)
Theorem baseline_jobs_raises_iff (cfg : BenchmarkConfig) (h : heap)
    (e : exn) :
  baseline_jobs (Benchmark_init (Some cfg)) h = Raise e
  <-> baselines cfg !! "scale" = None /\ e = KeyError "scale".
Proof.
  pose proof (baseline_jobs_run cfg h) as Hrun. simpl in Hrun. rewrite Hrun.
  destruct (baselines cfg !! "scale") as [scale|]; split.
  - discriminate.
  - by intros [? _].
  - by intros [= <-].
  - by intros [_ ->].
Qed.

(** X2.  With a scale of zero or less the loop over [range(1, scale + 1)] does
    not run: there is still one baseline job per element of seeds x tasks x
    splits, and each carries an empty list of times. *)
Theorem baseline_jobs_scale_not_positive (cfg : BenchmarkConfig) (scale : Z)
    (h : heap) :
  baselines cfg !! "scale" = Some scale -> scale <= 0 ->
  exists js,
    baseline_jobs (Benchmark_init (Some cfg)) h = Ok (js, (h + length js)%nat)
    /\ length js
       = (length (seeds cfg) * length (openml_tasks cfg)
          * length (data_splits cfg))%nat
    /\ Forall (fun j => bj_times j = []) js.
Proof.
  intros Hscale Hneg.
  pose proof (baseline_jobs_run cfg h) as Hrun. simpl in Hrun.
  rewrite Hscale in Hrun.
  exists (imap (fun i => built_baseline_job cfg scale (h + i)%nat)
               (product3 (seeds cfg) (openml_tasks cfg) (data_splits cfg))).
  split; [|split].
  - by rewrite Hrun, length_imap.
  - rewrite length_imap. apply length_product3.
  - apply Forall_forall. intros j Hj.
    rewrite (built_baseline_job_times _ _ _ _ _ Hj).
    apply elements_empty_iff. intros x.
    rewrite elem_of_rescaled_times. split; [|by intros ?%elem_of_empty].
    intros (i & t & Hi & _). lia.
Qed.

(** X3.  With a scale of at least one, every configured time is among the times
    of every baseline job, every time of a baseline job is a configured time
    multiplied by a factor between 1 and the scale, and a baseline job has at
    most [scale] times as many times as the configuration. *)
Theorem baseline_jobs_times_bounds (cfg : BenchmarkConfig) (scale : Z)
    (h : heap) :
  baselines cfg !! "scale" = Some scale -> 1 <= scale ->
  exists js h',
    baseline_jobs (Benchmark_init (Some cfg)) h = Ok (js, h')
    /\ Forall (fun j =>
          (forall t, t ∈ times_in_mins cfg -> t ∈ bj_times j)
          /\ (forall x, x ∈ bj_times j ->
                exists t i, t ∈ times_in_mins cfg /\ 1 <= i <= scale
                            /\ x = t * i)
          /\ (length (bj_times j)
              <= length (times_in_mins cfg) * Z.to_nat scale)%nat) js.
Proof.
  intros Hscale Hpos.
  pose proof (baseline_jobs_run cfg h) as Hrun. simpl in Hrun.
  rewrite Hscale in Hrun. eexists _, _. split; [exact Hrun|].
  apply Forall_forall. intros j Hj.
  rewrite (built_baseline_job_times _ _ _ _ _ Hj). split; [|split].
  - intros t Ht. apply elem_of_elements, elem_of_rescaled_times.
    exists 1, t. split; [lia|]. split; [done|lia].
  - intros x Hx. apply elem_of_elements, elem_of_rescaled_times in Hx
      as (i & t & Hi & Ht & ->). by exists t, i.
  - set (all := flat_map (fun i => map (fun t => t * i) (times_in_mins cfg))
                         (range 1 (scale + 1))).
    assert (Hlen : length all
                   = (length (times_in_mins cfg) * Z.to_nat scale)%nat).
    { unfold all.
      rewrite (length_flat_map_const _ (length (times_in_mins cfg)))
        by (intros; apply length_map).
      unfold range. rewrite length_map, length_seq. lia. }
    rewrite <- Hlen. apply submseteq_length, NoDup_submseteq.
    + apply NoDup_elements.
    + intros x Hx. apply elem_of_elements, elem_of_rescaled_times in Hx
        as (i & t & Hi & Ht & ->).
      apply list_elem_of_In, in_flat_map. exists i. split.
      * apply list_elem_of_In, elem_of_range. lia.
      * apply in_map_iff. exists t. split; [done|by apply list_elem_of_In].
Qed.

End Baselines.

(** On [zero_scale_config]. *)
Lemma baseline_jobs_scale_not_positive_zero :
  exists js,
    baseline_jobs (H := posix_paths)
      (Benchmark_init (H := posix_paths) (Some zero_scale_config)) 0%nat
    = Ok (js, (0 + length js)%nat)
    /\ length js = 2%nat
    /\ Forall (fun j => bj_times j = []) js.
Proof.
  destruct (baseline_jobs_scale_not_positive (H := posix_paths)
              zero_scale_config 0 0%nat)
    as (js & Hrun & Hlen & Htimes); [reflexivity|lia|].
  exists js. split; [exact Hrun|]. split; [exact Hlen|exact Htimes].
Defined.

Lemma baseline_jobs_times_bounds_small :
  exists js h',
    baseline_jobs (H := posix_paths)
      (Benchmark_init (H := posix_paths) (Some small_config)) 0%nat
    = Ok (js, h')
    /\ Forall (fun j => 30 ∈ bj_times j /\ 60 ∈ bj_times j
                        /\ (length (bj_times j) <= 6)%nat) js.
Proof.
  destruct (baseline_jobs_times_bounds (H := posix_paths) small_config 3
              0%nat)
    as (js & h' & Hrun & Hall); [reflexivity|lia|].
  exists js, h'. split; [exact Hrun|].
  eapply Forall_impl; [exact Hall|]. intros j (Hin & _ & Hlen).
  split; [apply Hin; by left|]. split; [apply Hin; right; by left|].
  exact Hlen.
Defined.

(** ** More on the selector strategies *)

Lemma mapM_Ok_Forall2 {X Y} (f : X -> M Y) (l : list X) (ys : list Y)
    (h h' : heap) :
  mapM f l h = Ok (ys, h') ->
  Forall2 (fun x y => exists h0 h1, f x h0 = Ok (y, h1)) l ys.
Proof.
  revert ys h. induction l as [|x l IH]; intros ys h Hrun; simpl in Hrun.
  - inversion Hrun. constructor.
  - unfold bind in Hrun. destruct (f x h) as [[y h1]|e] eqn:Hx; [|done].
    destruct (mapM f l h1) as [[zs h2]|e] eqn:Hl; [|done].
    inversion Hrun; subst. constructor; [by exists h, h1|by eapply IH].
Qed.

Section Strategies.
Context `{OsPath} `{PRNG}.

(** X4.  The "all" strategy raises exactly when the spec has no key [name], and
    then it raises [KeyError 'name']: the name is read before the loop, so
    this holds for an empty product as well. *)
Theorem selector_jobs_all_raises_iff (cfg : BenchmarkConfig)
    (sc : selector_config) (h : heap) (e : exn) :
  selector_jobs_all (Benchmark_init (Some cfg)) sc h = Raise e
  <-> sc_name sc = None /\ e = KeyError "name".
Proof.
  rewrite selector_jobs_all_run.
  destruct (sc_name sc) as [name|]; split.
  - discriminate.
  - by intros [? _].
  - by intros [= <-].
  - by intros [_ ->].
Qed.

(** X5.  The random strategy reads its keys in the order [n],
    [selection_seeds], [name], and reads [name] once per selection seed: a
    spec without [n] raises [KeyError 'n'] whatever else it lacks, a spec with
    [n] and without [selection_seeds] raises [KeyError 'selection_seeds'], and
    a spec with [n], at least one selection seed and no name raises
    [KeyError 'name'] before anything is drawn. *)
Theorem selector_jobs_n_random_key_errors (cfg : BenchmarkConfig)
    (sc : selector_config) (h : heap) :
  let run := selector_jobs_n_random (Benchmark_init (Some cfg)) sc h in
  (sc_n sc = None -> run = Raise (KeyError "n"))
  /\ (is_Some (sc_n sc) -> sc_selection_seeds sc = None ->
      run = Raise (KeyError "selection_seeds"))
  /\ (is_Some (sc_n sc) -> sc_name sc = None ->
      forall s ss, sc_selection_seeds sc = Some (s :: ss) ->
                   run = Raise (KeyError "name")).
Proof.
  intros run. unfold run. rewrite selector_jobs_n_random_run. repeat split.
  - by intros ->.
  - by intros [n ->] ->.
  - by intros [n ->] -> s ss ->.
Qed.

(** X6.  Without selection seeds the random strategy returns the empty list
    and allocates nothing: neither the name nor the count is looked at, so a
    missing name or a count beyond the number of algorithms goes unnoticed. *)
Theorem selector_jobs_n_random_no_seeds (cfg : BenchmarkConfig)
    (sc : selector_config) (h : heap) :
  is_Some (sc_n sc) -> sc_selection_seeds sc = Some [] ->
  selector_jobs_n_random (Benchmark_init (Some cfg)) sc h = Ok ([], h).
Proof.
  intros [n Hn] Hss. rewrite selector_jobs_n_random_run, Hn, Hss.
  by destruct (sc_name sc).
Qed.

Lemma built_random_block_names (cfg : BenchmarkConfig) (name : string)
    (n s : Z) (h0 h1 : heap) (B : list SelectorJob) :
  built_random_block cfg name n s h0 = Ok (B, h1) ->
  Forall (fun j => sj_name j = name +:+ "_" +:+ pretty s) B.
Proof.
  unfold built_random_block.
  destruct (random_subset (algorithms cfg) n s) as [l|e]; [|done].
  intros [= <- _]. apply Forall_forall. intros j Hj.
  apply list_elem_of_lookup in Hj as [p Hp]. rewrite list_lookup_imap in Hp.
  destruct (_ !! p) as [x|]; simpl in Hp; [|done]. inversion Hp.
  apply built_selector_job_fields.
Qed.

(** X7.  Every selector job of the random strategy bears the name of one
    selection seed of its spec, [name_seed], and of no other integer: the
    sub-selectors of two different selection seeds never share a name. *)
Theorem n_random_names_identify_seed (cfg : BenchmarkConfig)
    (sc : selector_config) (name : string) (n : Z) (ss : list Z)
    (h h' : heap) (js : list SelectorJob) :
  sc_name sc = Some name -> sc_n sc = Some n ->
  sc_selection_seeds sc = Some ss ->
  selector_jobs_n_random (Benchmark_init (Some cfg)) sc h = Ok (js, h') ->
  Forall (fun j =>
    exists s, s ∈ ss /\ sj_name j = name +:+ "_" +:+ pretty s
              /\ forall s', sj_name j = name +:+ "_" +:+ pretty s' -> s' = s)
    js.
Proof.
  intros Hname Hn Hss. rewrite selector_jobs_n_random_run, Hn, Hss, Hname.
  destruct (mapM _ ss h) as [[blocks h1]|e] eqn:Hrun; [|done].
  intros [= <- <-]. apply mapM_Ok_Forall2 in Hrun.
  apply Forall_forall. intros j Hj.
  apply list_elem_of_In, in_concat in Hj as (B & HB & Hj).
  apply list_elem_of_In, list_elem_of_lookup in HB as [i HB].
  destruct (Forall2_lookup_r _ _ _ _ _ Hrun HB)
    as (s & Hs & h0 & h2 & Hblock).
  apply built_random_block_names in Hblock. rewrite Forall_forall in Hblock.
  exists s. split; [by eapply list_elem_of_lookup_2|].
  split; [by apply Hblock, list_elem_of_In|].
  intros s' Hs'. rewrite (Hblock j) in Hs' by by apply list_elem_of_In.
  apply (inj (String.append name)) in Hs'.
  apply (inj (String.append "_")) in Hs'.
  by apply (inj pretty) in Hs'.
Qed.

End Strategies.

Section RandomStructure.
Context `{OsPath} `{PRNG}.

Lemma submseteq_NoDup {X} (l k : list X) : l ⊆+ k -> NoDup k -> NoDup l.
Proof.
  intros Hsub Hk. apply submseteq_Permutation in Hsub as [k' Hk'].
  rewrite Hk' in Hk. by apply NoDup_app in Hk as [? _].
Qed.

(** X8.  With a lawful generator, a random selector spec with a name, a count
    [0 <= n <= |A|] and selection seeds [ss] yields [|ss|] times
    [|seeds| * |tasks| * |splits|] selector jobs: for each selection seed in
    turn, one job named [name_seed] per element of seeds x tasks x splits in
    lexicographic nesting.  Every job depends on exactly [n] algorithm jobs,
    whose algorithms are taken from distinct positions of the configured list;
    when the configuration lists no algorithm twice, no selector job depends
    twice on the same algorithm. *)
Theorem n_random_jobs_structure (laws : PRNGLaws _) (cfg : BenchmarkConfig)
    (sc : selector_config) (name : string) (n : Z) (ss : list Z) (h : heap) :
  sc_name sc = Some name -> sc_n sc = Some n ->
  sc_selection_seeds sc = Some ss ->
  0 <= n <= Z.of_nat (length (algorithms cfg)) ->
  exists js h',
    selector_jobs_n_random (Benchmark_init (Some cfg)) sc h = Ok (js, h')
    /\ map (fun j => (sj_name j, (sj_seed j, sj_task j, sj_split j))) js
       = flat_map (fun s =>
                     map (fun x => (name +:+ "_" +:+ pretty s, x))
                         (lex_product3 (seeds cfg) (openml_tasks cfg)
                                       (data_splits cfg))) ss
    /\ length js
       = (length ss * (length (seeds cfg) * length (openml_tasks cfg)
                       * length (data_splits cfg)))%nat
    /\ Forall (fun j =>
          Z.of_nat (length (sj_algorithm_jobs j)) = n
          /\ map saj_algo (sj_algorithm_jobs j) ⊆+ algorithms cfg
          /\ (NoDup (algorithms cfg) ->
              NoDup (map saj_algo (sj_algorithm_jobs j)))) js.
Proof.
  intros Hname Hn Hss Hrange.
  destruct (n_random_blocks laws cfg sc name n ss h)
    as (blocks & h' & Hrun & Hb); [done..|].
  exists (concat blocks), h'. split; [exact Hrun|]. clear Hrun.
  set (P := lex_product3 (seeds cfg) (openml_tasks cfg) (data_splits cfg))
    in *.
  assert (HP : length P
               = (length (seeds cfg) * length (openml_tasks cfg)
                  * length (data_splits cfg))%nat).
  { unfold P. rewrite <- product3_lex. apply length_product3. }
  rewrite <- HP. clear HP Hss.
  induction Hb as [|s B ss' blocks' (l & g & _ & Hlen & Hsub & Hview) _ IH];
    simpl.
  { repeat split. constructor. }
  destruct IH as (IHkey & IHlen & IHall).
  assert (Hkey : map (fun j => (sj_name j, (sj_seed j, sj_task j, sj_split j)))
                     B
                 = map (fun x => (name +:+ "_" +:+ pretty s, x)) P).
  { apply (f_equal (map (fun t : string * (Z * Z * split) * list string =>
                           t.1))) in Hview.
    by rewrite !map_map in Hview. }
  split; [by rewrite map_app, Hkey, IHkey|]. split.
  - rewrite length_app, IHlen.
    apply (f_equal length) in Hkey. rewrite !length_map in Hkey. lia.
  - apply Forall_app. split; [|exact IHall].
    apply Forall_forall. intros j Hj.
    assert (Hl : map saj_algo (sj_algorithm_jobs j) = l).
    { apply (list_elem_of_fmap_2
               (fun j => (sj_name j, (sj_seed j, sj_task j, sj_split j),
                          map saj_algo (sj_algorithm_jobs j)))) in Hj.
      change (?f <$> ?l) with (map f l) in Hj. rewrite Hview in Hj.
      change (map ?f ?l) with (f <$> l) in Hj.
      apply list_elem_of_fmap in Hj as (x & Hx & _). by inversion Hx. }
    rewrite <- (length_map saj_algo), Hl.
    split; [done|]. split; [done|]. by apply submseteq_NoDup.
Qed.

End RandomStructure.

(** The random selector of [small_config]: two selection seeds, two seeds
    of the benchmark, hence four selector jobs. *)
Lemma n_random_jobs_structure_small :
  exists js h',
    selector_jobs_n_random (H := posix_paths) (H0 := lcg_prng)
      (Benchmark_init (H := posix_paths) (Some small_config)) ran2_selector
      0%nat
    = Ok (js, h')
    /\ map sj_name js = ["RAN2_1"; "RAN2_1"; "RAN2_2"; "RAN2_2"]
    /\ Forall (fun j => length (sj_algorithm_jobs j) = 2%nat) js.
Proof.
  destruct (n_random_jobs_structure (H := posix_paths) (H0 := lcg_prng)
              lcg_prng_laws small_config ran2_selector "RAN2" 2 [1; 2] 0%nat)
    as (js & h' & Hrun & Hkey & _ & Hall); [reflexivity..|simpl; lia|].
  exists js, h'. split; [exact Hrun|]. split.
  - apply (f_equal (map fst)) in Hkey. rewrite map_map in Hkey.
    exact Hkey.
  - eapply Forall_impl; [exact Hall|]. intros j (Hlen & _). simpl in Hlen.
    lia.
Defined.

(** [idle_random_selector] asks for five of the three algorithms of
    [small_config] and has no name, but also no selection seed. *)
Lemma selector_jobs_n_random_no_seeds_idle :
  selector_jobs_n_random (H := posix_paths) (H0 := lcg_prng)
    (Benchmark_init (H := posix_paths) (Some small_config))
    idle_random_selector 4%nat
  = Ok ([], 4%nat).
Proof.
  apply (selector_jobs_n_random_no_seeds (H := posix_paths) (H0 := lcg_prng)
           small_config idle_random_selector 4%nat);
    [by exists 5|reflexivity].
Defined.

(** The names of the random selector of [small_config]. *)
Lemma n_random_names_identify_seed_small :
  exists js h',
    selector_jobs_n_random (H := posix_paths) (H0 := lcg_prng)
      (Benchmark_init (H := posix_paths) (Some small_config)) ran2_selector
      0%nat
    = Ok (js, h')
    /\ Forall (fun j =>
         exists s, s ∈ [1; 2] /\ sj_name j = "RAN2" +:+ "_" +:+ pretty s
                   /\ forall s', sj_name j = "RAN2" +:+ "_" +:+ pretty s' ->
                                 s' = s) js.
Proof.
  eexists _, _. split; [vm_compute; reflexivity|].
  eapply (n_random_names_identify_seed (H := posix_paths) (H0 := lcg_prng)
            small_config ran2_selector "RAN2" 2 [1; 2] 0%nat);
    [reflexivity..|vm_compute; reflexivity].
Defined.

(** ** The exceptions of the enumeration *)

Section Exceptions.
Context `{OsPath} `{PRNG} `{Lifecycle}.

Lemma functions_lookup_known (self : Benchmark) (t : string) :
  t ∈ ["all"; "top_n"; "n_least_overlapping"; "n_most_coverage";
       "n_random_selection"] ->
  is_Some (functions self !! t).
Proof.
  intros Ht.
  repeat (apply elem_of_cons in Ht as [->|Ht]; [eexists; reflexivity|]).
  by apply elem_of_nil in Ht.
Qed.

(** X10.  [selector_jobs] raises exactly when one spec raises after every spec
    before it has resolved; it then raises the exception of that spec, and the
    specs after it are not looked at. *)
Theorem selector_jobs_raises_iff (cfg : BenchmarkConfig) (h : heap)
    (e : exn) :
  let self := Benchmark_init (Some cfg) in
  selector_jobs self h = Raise e
  <-> exists pre sc post selected h',
        selectors cfg = pre ++ sc :: post
        /\ mapM (resolve self) pre h = Ok (selected, h')
        /\ resolve self sc h' = Raise e.
Proof.
  intros self. rewrite selector_jobs_run. change (config self) with cfg.
  split.
  - destruct (mapM (resolve self) (selectors cfg) h) as [[ys h1]|e1] eqn:Hrun;
      [done|].
    intros [= ->]. by apply mapM_Raise_split.
  - intros (pre & sc & post & selected & h' & -> & Hpre & Hsc).
    by rewrite (mapM_raise_first _ pre post sc selected h h' e).
Qed.

Lemma resolve_raises_cases (cfg : BenchmarkConfig) (sc : selector_config)
    (h : heap) (e : exn) :
  resolve (Benchmark_init (Some cfg)) sc h = Raise e ->
  (sc_type sc = None /\ e = KeyError "type")
  \/ (exists t, sc_type sc = Some t
                /\ (t ∉ ["all"; "top_n"; "n_least_overlapping";
                         "n_most_coverage"; "n_random_selection"])
                /\ e = KeyError t)
  \/ (sc_type sc = Some "all" /\ sc_name sc = None /\ e = KeyError "name")
  \/ (sc_type sc = Some "n_random_selection"
      /\ ((sc_n sc = None /\ e = KeyError "n")
          \/ (sc_selection_seeds sc = None
              /\ e = KeyError "selection_seeds")
          \/ (sc_name sc = None /\ e = KeyError "name")
          \/ (exists n s ss,
                sc_n sc = Some n /\ sc_selection_seeds sc = Some ss
                /\ s ∈ ss
                /\ sample (Random (s * n)) (algorithms cfg) n = Raise e))).
Proof.
  unfold resolve, bind, getfield, getitem.
  destruct (sc_type sc) as [t|]; [|intros [= <-]; by left].
  unfold ret at 1.
  destruct (functions _ !! t) as [f|] eqn:Hf.
  - unfold ret. intros Hrun.
    apply functions_lookup in Hf
      as [[-> ->]|[[-> ->]|[[-> ->]|[[-> ->]|[-> ->]]]]]; try done.
    + rewrite selector_jobs_all_run in Hrun.
      destruct (sc_name sc) as [name|] eqn:Hname; [done|].
      inversion Hrun. right. right. by left.
    + right. right. right. split; [done|].
      rewrite selector_jobs_n_random_run in Hrun.
      destruct (sc_n sc) as [n|]; [|inversion Hrun; by left].
      destruct (sc_selection_seeds sc) as [ss|];
        [|inversion Hrun; right; by left].
      destruct (sc_name sc) as [name|];
        [|destruct ss; inversion Hrun; right; right; by left].
      destruct (mapM _ ss h) as [[blocks h1]|e1] eqn:Hblocks; [done|].
      inversion Hrun; subst e1.
      apply mapM_Raise_split in Hblocks
        as (pre & s & post & ys & h' & -> & _ & Hs).
      right. right. right. exists n, s, (pre ++ s :: post).
      split; [done|]. split; [done|].
      split; [apply elem_of_app; right; by left|].
      unfold built_random_block, random_subset in Hs.
      destruct (sample _ _ _) as [[l g]|e1]; [done|]. by inversion Hs.
  - intros [= <-]. right. left. exists t. split; [done|]. split; [|done].
    intros Ht. apply (functions_lookup_known (Benchmark_init (Some cfg))) in Ht.
    rewrite Hf in Ht. by destruct Ht.
Qed.

(** X11.  The exceptions of [selector_jobs] are those of one of its specs: a
    [KeyError] for a missing [type], for a type tag that [functions] does not
    hold, for the missing [name] of an "all" spec, for the missing [n],
    [selection_seeds] or [name] of a random spec, or else the exception that
    [rand.sample] raised for one of the selection seeds of a random spec.  The
    three placeholder strategies never raise. *)
Theorem selector_jobs_exceptions (cfg : BenchmarkConfig) (h : heap)
    (e : exn) :
  selector_jobs (Benchmark_init (Some cfg)) h = Raise e ->
  exists sc,
    sc ∈ selectors cfg
    /\ ((sc_type sc = None /\ e = KeyError "type")
        \/ (exists t, sc_type sc = Some t
                      /\ (t ∉ ["all"; "top_n"; "n_least_overlapping";
                               "n_most_coverage"; "n_random_selection"])
                      /\ e = KeyError t)
        \/ (sc_type sc = Some "all" /\ sc_name sc = None
            /\ e = KeyError "name")
        \/ (sc_type sc = Some "n_random_selection"
            /\ ((sc_n sc = None /\ e = KeyError "n")
                \/ (sc_selection_seeds sc = None
                    /\ e = KeyError "selection_seeds")
                \/ (sc_name sc = None /\ e = KeyError "name")
                \/ (exists n s ss,
                      sc_n sc = Some n /\ sc_selection_seeds sc = Some ss
                      /\ s ∈ ss
                      /\ sample (Random (s * n)) (algorithms cfg) n
                         = Raise e)))).
Proof.
  rewrite selector_jobs_run.
  change (config (Benchmark_init (Some cfg))) with cfg.
  destruct (mapM _ (selectors cfg) h) as [[ys h1]|e1] eqn:Hrun; [done|].
  intros [= ->].
  apply mapM_Raise_split in Hrun
    as (pre & sc & post & selected & h' & Hsel & _ & Hsc).
  exists sc. split.
  - rewrite Hsel. apply elem_of_app. right. by left.
  - by eapply resolve_raises_cases.
Qed.

Lemma job_filters_lookup_None (name : string) :
  name ∉ ["ready"; "failed"; "blocked"; "pending"; "running"; "complete";
          "in_progress"] ->
  job_filters !! name = None.
Proof.
  intros Hname. unfold job_filters.
  repeat (rewrite lookup_insert; case_decide;
          [exfalso; apply Hname; subst; set_solver|]).
  apply lookup_empty.
Qed.

Lemma job_filters_lookup_Some (name : string) :
  name ∈ ["ready"; "failed"; "blocked"; "pending"; "running"; "complete";
          "in_progress"] ->
  is_Some (job_filters !! name) /\ name <> "".
Proof.
  intros Hname.
  repeat (apply elem_of_cons in Hname as [->|Hname];
          [split; [eexists; reflexivity|done]|]).
  by apply elem_of_nil in Hname.
Qed.

(** X12.  [jobs] raises in three cases only, tried in this order: a selector
    spec raises (its exception is passed on); else [baselines] has no [scale]
    ([KeyError 'scale']); else the filter is a non-empty name other than the
    seven names of [job_filters] ([KeyError] of that name, raised only after
    every job has been built).  [algorithm_jobs] never raises, and an empty
    filter name is no filter. *)
Theorem jobs_raises_iff (cfg : BenchmarkConfig) (filter_by : option string)
    (h : heap) (e : exn) :
  let self := Benchmark_init (Some cfg) in
  let h1 := (h + length (product4 (seeds cfg) (openml_tasks cfg)
                                  (data_splits cfg) (algorithms cfg)))%nat in
  jobs self filter_by h = Raise e
  <-> selector_jobs self h1 = Raise e
      \/ (exists selected h2,
            selector_jobs self h1 = Ok (selected, h2)
            /\ baselines cfg !! "scale" = None /\ e = KeyError "scale")
      \/ (exists selected h2 name,
            selector_jobs self h1 = Ok (selected, h2)
            /\ is_Some (baselines cfg !! "scale")
            /\ filter_by = Some name /\ name <> ""
            /\ (name ∉ ["ready"; "failed"; "blocked"; "pending"; "running";
                        "complete"; "in_progress"])
            /\ e = KeyError name).
Proof.
  intros self h1. unfold jobs, bind.
  pose proof (algorithm_jobs_run cfg h) as Ha. simpl in Ha.
  fold self h1 in Ha. rewrite Ha.
  destruct (selector_jobs self h1) as [[sel h2]|e1].
  2:{ split; [intros [= ->]; by left|].
      intros [[= ->]|[(? & ? & ? & _)|(? & ? & ? & ? & _)]]; done. }
  pose proof (baseline_jobs_run cfg h2) as Hb. simpl in Hb.
  fold self in Hb. rewrite Hb.
  destruct (baselines cfg !! "scale") as [scale|].
  2:{ split.
      - intros [= <-]. right. left. by exists sel, h2.
      - intros [?|[(? & ? & _ & _ & ->)|(? & ? & ? & _ & [? ?] & _)]];
          done. }
  destruct filter_by as [name|].
  2:{ split; [done|].
      intros [?|[(? & ? & _ & ? & _)|(? & ? & ? & _ & _ & ? & _)]]; done. }
  destruct (String.eqb_spec name "") as [->|Hne]; simpl.
  { split; [done|].
    intros [?|[(? & ? & _ & ? & _)|(? & ? & ? & _ & _ & [= <-] & ? & _)]];
      done. }
  unfold getitem.
  destruct (decide (name ∈ ["ready"; "failed"; "blocked"; "pending";
                            "running"; "complete"; "in_progress"]))
    as [Hin|Hout].
  - destruct (job_filters_lookup_Some name Hin) as [[q ->] _]. split; [done|].
    intros [?|[(? & ? & _ & ? & _)|(? & ? & ? & _ & _ & [= <-] & _ & ? & _)]];
      done.
  - rewrite (job_filters_lookup_None name Hout). split.
    + intros [= <-]. right. right. exists sel, h2, name.
      split; [done|]. split; [by exists scale|]. done.
    + intros [?|[(? & ? & _ & ? & _)|(? & ? & ? & _ & _ & [= <-] & _ & _ & ->)]];
        done.
Qed.

End Exceptions.

(** ** When the enumeration succeeds, and how many jobs it returns *)

Lemma mapM_succeeds_iff {X Y} (f : X -> M Y) (P : X -> Prop) (l : list X) :
  (forall x h, (exists y h', f x h = Ok (y, h')) <-> P x) ->
  forall h, (exists ys h', mapM f l h = Ok (ys, h')) <-> Forall P l.
Proof.
  intros Hf. induction l as [|x l IH]; intros h; simpl.
  - split; [constructor|]. intros _. by exists [], h.
  - unfold bind. split.
    + intros (ys & h' & Hrun).
      destruct (f x h) as [[y h1]|e] eqn:Hx; [|done].
      destruct (mapM f l h1) as [[zs h2]|e] eqn:Hl; [|done].
      constructor; [apply (Hf x h); eauto|apply (IH h1); eauto].
    + intros Hall. inversion Hall as [|? ? Hx Hl]; subst.
      apply (Hf x h) in Hx as (y & h1 & ->).
      apply (IH h1) in Hl as (zs & h2 & ->). by eexists _, _.
Qed.

Section Success.
Context `{OsPath} `{PRNG} `{Lifecycle}.

Lemma resolve_dispatch (self : Benchmark) (sc : selector_config) (t : string)
    (h : heap) :
  sc_type sc = Some t ->
  resolve self sc h = match functions self !! t with
                      | Some get_selector => get_selector sc h
                      | None => Raise (KeyError t)
                      end.
Proof.
  intros Ht. unfold resolve, bind, getfield, getitem. rewrite Ht.
  unfold ret at 1. by destruct (functions self !! t).
Qed.

Lemma functions_lookup_unknown (self : Benchmark) (t : string) :
  t <> "all" -> t <> "top_n" -> t <> "n_most_coverage" ->
  t <> "n_random_selection" -> t <> "n_least_overlapping" ->
  functions self !! t = None.
Proof.
  intros. destruct (functions self !! t) as [f|] eqn:Hf; [|done].
  apply functions_lookup in Hf
    as [[-> _]|[[-> _]|[[-> _]|[[-> _]|[-> _]]]]]; done.
Qed.



Lemma resolve_succeeds_iff (laws : PRNGLaws _) (cfg : BenchmarkConfig)
    (sc : selector_config) (h : heap) :
  (exists ys h', resolve (Benchmark_init (Some cfg)) sc h = Ok (ys, h'))
  <-> well_formed_selector cfg sc = true.
Proof.
  unfold well_formed_selector. destruct (sc_type sc) as [t|] eqn:Ht.
  2:{ unfold resolve, bind, getfield. rewrite Ht. split; [|done].
      by intros (? & ? & ?). }
  rewrite (resolve_dispatch _ sc t h Ht).
  destruct (String.eqb_spec t "all") as [->|Hall].
  { change (functions _ !! "all") with (Some (selector_jobs_all
      (Benchmark_init (Some cfg)))).
    cbv beta iota. rewrite selector_jobs_all_run. destruct (sc_name sc).
    - split; [done|]. intros _. by eexists _, _.
    - split; [|done]. by intros (? & ? & ?). }
  destruct (String.eqb_spec t "n_random_selection") as [->|Hran].
  { change (functions _ !! "n_random_selection")
      with (Some (selector_jobs_n_random (Benchmark_init (Some cfg)))).
    cbv beta iota. rewrite selector_jobs_n_random_run.
    destruct (sc_n sc) as [n|]; [|split; [by intros (? & ? & ?)|done]].
    destruct (sc_selection_seeds sc) as [[|s ss]|];
      [|..|split; [by intros (? & ? & ?)|done]].
    { split; [done|]. intros _. destruct (sc_name sc); by eexists _, _. }
    destruct (sc_name sc) as [name|];
      [|split; [by intros (? & ? & ?)|done]].
    destruct (decide (0 <= n <= Z.of_nat (length (algorithms cfg))))
      as [Hin|Hout].
    - split; [intros _; apply andb_true_iff; lia|]. intros _.
      destruct (mapM_Forall2 (built_random_block cfg name n)
                  (fun _ _ => True) (s :: ss)) with h
        as (blocks & h' & -> & _); [|by eexists _, _].
      intros s0 h0 _. unfold built_random_block, random_subset.
      destruct (sample_in_range (Random (s0 * n)) (algorithms cfg) n Hin)
        as (l & g & -> & _). by eexists _, _.
    - split; [|intros Hb; apply andb_true_iff in Hb; lia].
      intros (ys & h' & Hrun). exfalso. simpl in Hrun.
      unfold bind, built_random_block, random_subset in Hrun.
      destruct (sample_out_of_range (Random (s * n)) (algorithms cfg) n)
        as [msg Hmsg]; [lia|]. by rewrite Hmsg in Hrun. }
  destruct (String.eqb_spec t "top_n") as [->|Htop].
  { split; [done|]. intros _. by eexists _, _. }
  destruct (String.eqb_spec t "n_least_overlapping") as [->|Hlo].
  { split; [done|]. intros _. by eexists _, _. }
  destruct (String.eqb_spec t "n_most_coverage") as [->|Hmc].
  { split; [done|]. intros _. by eexists _, _. }
  rewrite functions_lookup_unknown by done.
  split; [|done]. by intros (? & ? & ?).
Qed.

(** X13.  With a lawful generator, [jobs()] succeeds exactly when every selector
    spec of the configuration is well formed and [baselines] holds a
    [scale]. *)
Theorem jobs_succeeds_iff (laws : PRNGLaws _) (cfg : BenchmarkConfig)
    (h : heap) :
  (exists js h', jobs (Benchmark_init (Some cfg)) None h = Ok (js, h'))
  <-> forallb (well_formed_selector cfg) (selectors cfg) = true
      /\ is_Some (baselines cfg !! "scale").
Proof.
  set (self := Benchmark_init (Some cfg)).
  set (h1 := (h + length (product4 (seeds cfg) (openml_tasks cfg)
                                   (data_splits cfg) (algorithms cfg)))%nat).
  assert (Hsel : (exists sel h2, selector_jobs self h1 = Ok (sel, h2))
                 <-> forallb (well_formed_selector cfg) (selectors cfg)
                     = true).
  { rewrite forallb_forall, <- List.Forall_forall.
    rewrite <- (mapM_succeeds_iff (resolve self) _ (selectors cfg)
                  (fun sc h0 => resolve_succeeds_iff laws cfg sc h0) h1).
    rewrite selector_jobs_run. change (config self) with cfg.
    destruct (mapM (resolve self) (selectors cfg) h1) as [[ys h2]|e].
    - split; intros _; by eexists _, _.
    - split; by intros (? & ? & ?). }
  unfold jobs, bind.
  pose proof (algorithm_jobs_run cfg h) as Ha. simpl in Ha.
  fold self h1 in Ha. rewrite Ha. rewrite <- Hsel.
  destruct (selector_jobs self h1) as [[sel h2]|e].
  2:{ split; [by intros (? & ? & ?)|]. by intros [(? & ? & ?) _]. }
  pose proof (baseline_jobs_run cfg h2) as Hb. simpl in Hb.
  fold self in Hb. rewrite Hb.
  destruct (baselines cfg !! "scale") as [scale|].
  - split; [intros _|intros _; by eexists _, _].
    split; [by eexists _, _|by exists scale].
  - split; [by intros (? & ? & ?)|]. by intros [_ [? ?]].
Qed.


End Success.

(** ** What every job of the benchmark carries *)

Lemma elem_of_product3 {A B C} (xs : list A) (ys : list B) (zs : list C)
    (x : A) (y : B) (z : C) :
  (x, y, z) ∈ product3 xs ys zs -> x ∈ xs /\ y ∈ ys /\ z ∈ zs.
Proof.
  unfold product3, product2. rewrite !list_elem_of_In.
  intros Hin. apply in_flat_map in Hin as ([x' y'] & Hxy & Hz).
  apply in_map_iff in Hz as (z' & [= -> -> ->] & Hz).
  apply in_flat_map in Hxy as (x'' & Hx & Hy).
  apply in_map_iff in Hy as (y'' & [= -> ->] & Hy). done.
Qed.

Lemma elem_of_product4 {A B C D} (xs : list A) (ys : list B) (zs : list C)
    (ws : list D) (x : A) (y : B) (z : C) (w : D) :
  (x, y, z, w) ∈ product4 xs ys zs ws ->
  x ∈ xs /\ y ∈ ys /\ z ∈ zs /\ w ∈ ws.
Proof.
  unfold product4. intros Hin. apply list_elem_of_In in Hin.
  apply in_flat_map in Hin as ([[x' y'] z'] & Hxyz & Hw).
  apply in_map_iff in Hw as (w' & [= -> -> -> ->] & Hw).
  apply list_elem_of_In, elem_of_product3 in Hxyz as (? & ? & ?).
  apply list_elem_of_In in Hw. done.
Qed.

Section Settings.
Context `{OsPath} `{PRNG} `{Lifecycle}.

Lemma settled_built_selector_jobs (cfg : BenchmarkConfig) (name : string)
    (algos : list string) (o : nat -> nat) :
  Forall (fun j => settled cfg (Selector j))
    (imap (fun p => built_selector_job cfg name algos (o p))
          (product3 (seeds cfg) (openml_tasks cfg) (data_splits cfg))).
Proof.
  apply Forall_forall. intros j Hj.
  apply list_elem_of_lookup in Hj as [p Hp]. rewrite list_lookup_imap in Hp.
  destruct (_ !! p) as [[[seed task] split]|] eqn:Hx; simpl in Hp; [|done].
  inversion Hp. apply list_elem_of_lookup_2, elem_of_product3 in Hx
    as (? & ? & ?).
  unfold settled, built_selector_job. simpl. repeat split; try done.
  apply Forall_forall. intros d Hd.
  apply list_elem_of_lookup in Hd as [i Hi]. rewrite list_lookup_imap in Hi.
  destruct (algos !! i) as [algo|]; simpl in Hi; [|done]. by inversion Hi.
Qed.

Lemma settled_resolve (cfg : BenchmarkConfig) (sc : selector_config)
    (h h' : heap) (ys : list SelectorJob) :
  resolve (Benchmark_init (Some cfg)) sc h = Ok (ys, h') ->
  Forall (fun j => settled cfg (Selector j)) ys.
Proof.
  unfold resolve, bind, getfield, getitem.
  destruct (sc_type sc) as [t|]; [|done]. unfold ret at 1.
  destruct (functions _ !! t) as [f|] eqn:Hf; [|done]. unfold ret.
  apply functions_lookup in Hf
    as [[_ ->]|[[_ ->]|[[_ ->]|[[_ ->]|[_ ->]]]]].
  - rewrite selector_jobs_all_run. destruct (sc_name sc); [|done].
    intros [= <- _]. apply settled_built_selector_jobs.
  - intros [= <- _]. constructor.
  - intros [= <- _]. constructor.
  - rewrite selector_jobs_n_random_run.
    destruct (sc_n sc) as [n|]; [|done].
    destruct (sc_selection_seeds sc) as [ss|]; [|done].
    destruct (sc_name sc) as [name|].
    2:{ destruct ss; [|done]. intros [= <- _]. constructor. }
    destruct (mapM _ ss h) as [[blocks h1]|e] eqn:Hrun; [|done].
    intros [= <- _]. apply mapM_Ok_Forall2 in Hrun.
    induction Hrun as [|s B ss' blocks' (h0 & h2 & HB) _ IH];
      [constructor|].
    simpl. apply Forall_app. split; [|exact IH].
    unfold built_random_block in HB.
    destruct (random_subset (algorithms cfg) n s) as [l|e]; [|done].
    inversion HB. apply settled_built_selector_jobs.
  - intros [= <- _]. constructor.
Qed.

(** X15.  Whatever the filter, every job that [jobs] returns is settled in the
    benchmark: it carries the environment made from [username], the root
    folder made from [dir] and [id], the runner of its kind and a seed, a task
    and a split of the configuration; algorithm and selector jobs carry
    [times_in_mins]; and a selector job depends only on algorithm jobs built
    for its own seed, task and split. *)
Theorem jobs_settled (cfg : BenchmarkConfig) (filter_by : option string)
    (h h' : heap) (js : list TPOTJob) :
  jobs (Benchmark_init (Some cfg)) filter_by h = Ok (js, h') ->
  Forall (settled cfg) js.
Proof.
  set (self := Benchmark_init (Some cfg)).
  unfold jobs, bind.
  pose proof (algorithm_jobs_run cfg h) as Ha. simpl in Ha.
  fold self in Ha. rewrite Ha. rewrite selector_jobs_run.
  change (config self) with cfg.
  destruct (mapM (resolve self) (selectors cfg) _) as [[ys h2]|e] eqn:Hsel;
    [|done].
  pose proof (baseline_jobs_run cfg h2) as Hb. simpl in Hb.
  fold self in Hb. rewrite Hb.
  destruct (baselines cfg !! "scale") as [scale|]; [|done].
  set (all := map Algorithm _ ++ map Selector _ ++ map Baseline _).
  assert (Hall : Forall (settled cfg) all).
  { unfold all. rewrite !Forall_app, !Forall_fmap. repeat split.
    - apply Forall_forall. intros j Hj.
      apply list_elem_of_lookup in Hj as [i Hi].
      rewrite list_lookup_imap in Hi.
      destruct (_ !! i) as [[[[seed task] split] algo]|] eqn:Hx;
        simpl in Hi; [|done].
      inversion Hi. apply list_elem_of_lookup_2, elem_of_product4 in Hx
        as (? & ? & ? & ?). by repeat split.
    - apply mapM_Ok_Forall2 in Hsel. clear Ha Hb all.
      induction Hsel as [|sc y scs ys' (h0 & h3 & Hy) _ IH]; [constructor|].
      simpl. apply Forall_app. split; [|exact IH].
      by eapply settled_resolve.
    - apply Forall_forall. intros j Hj.
      apply list_elem_of_lookup in Hj as [i Hi].
      rewrite list_lookup_imap in Hi.
      destruct (_ !! i) as [[[seed task] split]|] eqn:Hx;
        simpl in Hi; [|done].
      inversion Hi. apply list_elem_of_lookup_2, elem_of_product3 in Hx
        as (? & ? & ?). by repeat split. }
  assert (Hfilter : forall q, Forall (settled cfg) (List.filter q all)).
  { intros q. apply Forall_forall. intros j Hj.
    apply list_elem_of_In, filter_In in Hj as [Hj _].
    rewrite Forall_forall in Hall. by apply Hall, list_elem_of_In. }
  destruct filter_by as [name|]; [|by intros [= <- _]].
  destruct (negb (String.eqb name "")); [|by intros [= <- _]].
  unfold getitem. destruct (job_filters !! name) as [q|]; [|done].
  intros [= <- _]. apply Hfilter.
Qed.

End Settings.

(** ** The objects of the enumeration *)

Lemma seq_glue (h h1 h2 : nat) :
  (h <= h1)%nat -> (h1 <= h2)%nat ->
  seq h (h1 - h) ++ seq h1 (h2 - h1) = seq h (h2 - h).
Proof.
  intros H1 H2. replace (h2 - h)%nat with ((h1 - h) + (h2 - h1))%nat by lia.
  rewrite seq_app. do 2 f_equal. lia.
Qed.

Lemma flat_map_concat {X Y} (f : X -> list Y) (ls : list (list X)) :
  flat_map f (concat ls) = flat_map (flat_map f) ls.
Proof.
  induction ls as [|l ls IH]; simpl; [done|]. by rewrite flat_map_app, IH.
Qed.

Lemma allocates_mapM {A X} (objs : X -> list nat) (f : A -> M X)
    (l : list A) :
  (forall a, allocates objs (f a)) -> allocates (flat_map objs) (mapM f l).
Proof.
  intros Hf. induction l as [|a l IH]; intros h ys h' Hrun; simpl in Hrun.
  - inversion Hrun; subst. split; [done|]. by rewrite Nat.sub_diag.
  - unfold bind in Hrun. destruct (f a h) as [[y h1]|e] eqn:Ha; [|done].
    destruct (mapM f l h1) as [[zs h2]|e] eqn:Hl; [|done].
    inversion Hrun; subst.
    destruct (Hf a h y h1 Ha) as [Hle1 Hy].
    destruct (IH h1 zs h' Hl) as [Hle2 Hzs].
    split; [lia|]. simpl. rewrite Hy, Hzs. by apply seq_glue.
Qed.

Lemma flat_map_imap_seq {A X} (objs : X -> list nat) (g : nat -> A -> X)
    (c : nat) (P : list A) (h : nat) :
  (forall h0 x, objs (g h0 x) = seq h0 c) ->
  flat_map objs (imap (fun p => g (h + p * c)%nat) P)
  = seq h (length P * c).
Proof.
  intros Hg. revert h. induction P as [|x P IH]; intros h; simpl; [done|].
  rewrite Hg, Nat.add_0_r.
  rewrite (imap_ext _ (fun p => g ((h + c) + p * c)%nat))
    by (intros i y _; simpl; f_equal; lia).
  by rewrite IH, seq_app.
Qed.

Section Objects.
Context `{OsPath} `{PRNG} `{Lifecycle}.

Lemma built_selector_job_objects (cfg : BenchmarkConfig) (name : string)
    (algos : list string) (h0 : nat) (x : Z * Z * split) :
  job_objects (Selector (built_selector_job cfg name algos h0 x))
  = seq h0 (length algos + 1).
Proof.
  destruct x as [[seed task] split]. simpl. rewrite seq_app. simpl. f_equal.
  apply list_eq. intros i.
  change (map ?f ?l) with (f <$> l).
  rewrite list_lookup_fmap, list_lookup_imap.
  destruct (algos !! i) as [algo|] eqn:Hi; simpl.
  - apply lookup_lt_Some in Hi. by rewrite lookup_seq_lt.
  - apply lookup_ge_None in Hi. by rewrite lookup_seq_ge.
Qed.

Lemma allocates_built_selector_jobs (cfg : BenchmarkConfig) (name : string)
    (algos : list string) (P : list (Z * Z * split)) (h : nat) :
  let c := (length algos + 1)%nat in
  flat_map (fun j => job_objects (Selector j))
    (imap (fun p => built_selector_job cfg name algos (h + p * c)%nat) P)
  = seq h ((h + length P * c) - h).
Proof.
  intros c. replace (h + length P * c - h)%nat with (length P * c)%nat by lia.
  apply (flat_map_imap_seq (fun j => job_objects (Selector j))
           (built_selector_job cfg name algos)).
  intros h0 x. apply built_selector_job_objects.
Qed.

Lemma allocates_resolve (cfg : BenchmarkConfig) (sc : selector_config) :
  allocates (flat_map (fun j => job_objects (Selector j)))
            (resolve (Benchmark_init (Some cfg)) sc).
Proof.
  intros h ys h'. unfold resolve, bind, getfield, getitem.
  destruct (sc_type sc) as [t|]; [|done]. unfold ret at 1.
  destruct (functions _ !! t) as [f|] eqn:Hf; [|done]. unfold ret.
  assert (Hnone : Ok (@nil SelectorJob, h) = Ok (ys, h') ->
                  (h <= h')%nat
                  /\ flat_map (fun j => job_objects (Selector j)) ys
                     = seq h (h' - h)).
  { intros [= <- <-]. split; [done|]. by rewrite Nat.sub_diag. }
  apply functions_lookup in Hf
    as [[_ ->]|[[_ ->]|[[_ ->]|[[_ ->]|[_ ->]]]]]; try exact Hnone.
  - rewrite selector_jobs_all_run. destruct (sc_name sc) as [name|]; [|done].
    intros [= <- <-]. split; [lia|]. apply allocates_built_selector_jobs.
  - rewrite selector_jobs_n_random_run.
    destruct (sc_n sc) as [n|]; [|done].
    destruct (sc_selection_seeds sc) as [ss|]; [|done].
    destruct (sc_name sc) as [name|]; [|destruct ss; [exact Hnone|done]].
    destruct (mapM _ ss h) as [[blocks h1]|e] eqn:Hrun; [|done].
    intros [= <- <-]. rewrite flat_map_concat.
    apply (allocates_mapM (flat_map (fun j => job_objects (Selector j)))
             (built_random_block cfg name n) ss); [|exact Hrun].
    intros s h0 B h2. unfold built_random_block.
    destruct (random_subset (algorithms cfg) n s) as [l|e]; [|done].
    intros [= <- <-]. split; [lia|]. apply allocates_built_selector_jobs.
Qed.

(** X16.  The objects of the jobs that [jobs()] returns, the jobs that selector
    jobs depend on included, are exactly the objects that the call allocates,
    each listed once, in the order of allocation: no object is returned
    twice, no job existed before the call, and the algorithm jobs that a
    selector job depends on are objects of their own, not the jobs of the
    collection of algorithm jobs. *)
Theorem jobs_objects (cfg : BenchmarkConfig) (h h' : heap)
    (js : list TPOTJob) :
  jobs (Benchmark_init (Some cfg)) None h = Ok (js, h') ->
  (h <= h')%nat
  /\ flat_map job_objects js = seq h (h' - h)
  /\ NoDup (flat_map job_objects js).
Proof.
  set (self := Benchmark_init (Some cfg)). intros Hrun.
  assert (Hobjs : (h <= h')%nat /\ flat_map job_objects js = seq h (h' - h)).
  2:{ destruct Hobjs as [Hle Hobjs]. split; [done|]. split; [done|].
      rewrite Hobjs. apply NoDup_seq. }
  revert Hrun. unfold jobs, bind.
  pose proof (algorithm_jobs_run cfg h) as Ha. simpl in Ha.
  fold self in Ha. rewrite Ha. rewrite selector_jobs_run.
  change (config self) with cfg.
  set (P4 := product4 (seeds cfg) (openml_tasks cfg) (data_splits cfg)
                      (algorithms cfg)) in *.
  destruct (mapM (resolve self) (selectors cfg) _) as [[ys h2]|e] eqn:Hsel;
    [|done].
  pose proof (baseline_jobs_run cfg h2) as Hb. simpl in Hb.
  fold self in Hb. rewrite Hb.
  destruct (baselines cfg !! "scale") as [scale|]; [|done].
  set (P3 := product3 (seeds cfg) (openml_tasks cfg) (data_splits cfg)) in *.
  intros [= <- <-].
  destruct (allocates_mapM (flat_map (fun j => job_objects (Selector j)))
              (resolve self) (selectors cfg)
              (allocates_resolve cfg) _ _ _ Hsel) as [Hle Hys].
  split; [lia|].
  rewrite !flat_map_app, !flat_map_map.
  rewrite flat_map_concat, Hys.
  rewrite (imap_ext _ (fun i => built_algorithm_job cfg (h + i * 1)%nat))
    by (intros i x _; simpl; f_equal; lia).
  rewrite (flat_map_imap_seq (fun j => job_objects (Algorithm j))
             (built_algorithm_job cfg) 1)
    by (by intros h0 [[[seed task] split] algo]).
  rewrite (imap_ext (fun i => built_baseline_job cfg scale (h2 + i)%nat)
             (fun i => built_baseline_job cfg scale (h2 + i * 1)%nat))
    by (intros i x _; simpl; f_equal; lia).
  rewrite (flat_map_imap_seq (fun j => job_objects (Baseline j))
             (built_baseline_job cfg scale) 1)
    by (by intros h0 [[seed task] split]).
  replace (length P4 * 1)%nat with ((h + length P4) - h)%nat by lia.
  replace (length P3 * 1)%nat with ((h2 + length P3) - h2)%nat by lia.
  rewrite seq_glue by lia. rewrite seq_glue by lia. done.
Qed.

End Objects.

Section RandomExtremes.
Context `{OsPath} `{PRNG}.

(** X9.  With a lawful generator, a random selector whose count is the number
    of configured algorithms makes every selector job depend on every
    configured algorithm once: the algorithms of its dependencies are a
    permutation of the configured list. *)
Theorem n_random_all_algorithms (laws : PRNGLaws _) (cfg : BenchmarkConfig)
    (sc : selector_config) (name : string) (n : Z) (ss : list Z) (h : heap) :
  sc_name sc = Some name -> sc_n sc = Some n ->
  sc_selection_seeds sc = Some ss ->
  n = Z.of_nat (length (algorithms cfg)) ->
  exists js h',
    selector_jobs_n_random (Benchmark_init (Some cfg)) sc h = Ok (js, h')
    /\ Forall (fun j =>
          map saj_algo (sj_algorithm_jobs j) ≡ₚ algorithms cfg) js.
Proof.
  intros Hname Hn Hss Hall.
  destruct (n_random_blocks laws cfg sc name n ss h)
    as (blocks & h' & Hrun & Hb); [done..|lia|].
  exists (concat blocks), h'. split; [exact Hrun|]. clear Hrun Hss.
  induction Hb as [|s B ss' blocks' (l & g & _ & Hlen & Hsub & Hview) _ IH];
    simpl; [constructor|].
  apply Forall_app. split; [|exact IH].
  apply Forall_forall. intros j Hj.
  assert (Hl : map saj_algo (sj_algorithm_jobs j) = l).
  { apply (list_elem_of_fmap_2
             (fun j => (sj_name j, (sj_seed j, sj_task j, sj_split j),
                        map saj_algo (sj_algorithm_jobs j)))) in Hj.
    change (?f <$> ?l) with (map f l) in Hj. rewrite Hview in Hj.
    change (map ?f ?l) with (f <$> l) in Hj.
    apply list_elem_of_fmap in Hj as (x & Hx & _). by inversion Hx. }
  rewrite Hl. apply submseteq_length_Permutation; [done|lia].
Qed.

End RandomExtremes.

(** ** The further theorems on the example configurations *)

Lemma n_random_all_algorithms_small :
  exists js h',
    selector_jobs_n_random (H := posix_paths) (H0 := lcg_prng)
      (Benchmark_init (H := posix_paths) (Some small_config)) ran3_selector
      0%nat
    = Ok (js, h')
    /\ Forall (fun j =>
          map saj_algo (sj_algorithm_jobs j) ≡ₚ ["NB"; "TR"; "KNN"]) js.
Proof.
  apply (n_random_all_algorithms (H := posix_paths) (H0 := lcg_prng)
           lcg_prng_laws small_config ran3_selector "RAN3" 3 [7] 0%nat);
    reflexivity.
Defined.

(** [unscaled_config] has no [scale]. *)
Lemma baseline_jobs_raises_iff_unscaled :
  baseline_jobs (H := posix_paths)
    (Benchmark_init (H := posix_paths) (Some unscaled_config)) 0%nat
  = Raise (KeyError "scale").
Proof.
  apply (baseline_jobs_raises_iff (H := posix_paths) unscaled_config 0%nat
           (KeyError "scale")).
  split; reflexivity.
Defined.

(** An "all" spec without a name. *)
Lemma selector_jobs_all_raises_iff_nameless :
  selector_jobs_all (H := posix_paths)
    (Benchmark_init (H := posix_paths) (Some small_config))
    nameless_all_selector 0%nat
  = Raise (KeyError "name").
Proof.
  apply (selector_jobs_all_raises_iff (H := posix_paths) small_config
           nameless_all_selector 0%nat (KeyError "name")).
  split; reflexivity.
Defined.

(** [bogus_config]: the first spec resolves, the second raises. *)
Lemma selector_jobs_raises_iff_bogus :
  selector_jobs (H := posix_paths) (H0 := lcg_prng)
    (Benchmark_init (H := posix_paths) (Some bogus_config)) 0%nat
  = Raise (KeyError "bogus").
Proof.
  apply (selector_jobs_raises_iff (H := posix_paths) (H0 := lcg_prng)
           bogus_config 0%nat (KeyError "bogus")).
  eexists [all_selector], bogus_selector, [], _, _.
  split; [reflexivity|]. split; vm_compute; reflexivity.
Defined.

Lemma selector_jobs_exceptions_bogus :
  exists sc, sc ∈ selectors bogus_config /\ sc_type sc = Some "bogus".
Proof.
  destruct (selector_jobs_exceptions (H := posix_paths) (H0 := lcg_prng)
              bogus_config 0%nat (KeyError "bogus"))
    as (sc & Hin & Hcases); [vm_compute; reflexivity|].
  exists sc. split; [exact Hin|].
  destruct Hcases as [[_ He]|[(t & Ht & _ & He)|[(_ & _ & He)|(_ & Hr)]]].
  - discriminate.
  - inversion He. by subst.
  - discriminate.
  - destruct Hr as [[_ He]|[[_ He]|[[_ He]|(n & s & ss & Hn & Hss & Hs & He)]]];
      try discriminate.
    exfalso.
    repeat (apply elem_of_cons in Hin as [->|Hin]; [done|]).
    by apply elem_of_nil in Hin.
Defined.

(** [unscaled_config] with the filter [complete]: the selectors resolve,
    then [KeyError 'scale']. *)
Lemma jobs_raises_iff_unscaled :
  jobs (H := posix_paths) (H0 := lcg_prng) (H1 := even_seed_backend)
    (Benchmark_init (H := posix_paths) (Some unscaled_config))
    (Some "complete") 0%nat
  = Raise (KeyError "scale").
Proof.
  apply (jobs_raises_iff (H := posix_paths) (H0 := lcg_prng)
           (H1 := even_seed_backend) unscaled_config (Some "complete") 0%nat
           (KeyError "scale")).
  right. left. eexists _, _. split; [vm_compute; reflexivity|].
  split; reflexivity.
Defined.

(** The default configuration: [Benchmark()] enumerates its jobs. *)
Lemma jobs_succeeds_iff_default :
  exists js h',
    jobs (H := posix_paths) (H0 := lcg_prng) (H1 := even_seed_backend)
      (Benchmark_init (H := posix_paths) None) None 0%nat
    = Ok (js, h').
Proof.
  apply (jobs_succeeds_iff (H := posix_paths) (H0 := lcg_prng)
           (H1 := even_seed_backend) lcg_prng_laws default_config 0%nat).
  split; [vm_compute; reflexivity|]. by exists 8.
Defined.


(** The jobs of [small_config] that are complete are settled. *)
Lemma jobs_settled_small :
  exists js h',
    jobs (H := posix_paths) (H0 := lcg_prng) (H1 := even_seed_backend)
      (Benchmark_init (H := posix_paths) (Some small_config))
      (Some "complete") 0%nat
    = Ok (js, h')
    /\ Forall (settled (H := posix_paths) small_config) js.
Proof.
  destruct (jobs (H := posix_paths) (H0 := lcg_prng)
              (H1 := even_seed_backend)
              (Benchmark_init (H := posix_paths) (Some small_config))
              (Some "complete") 0%nat)
    as [[js h']|e] eqn:Hrun; [|vm_compute in Hrun; discriminate].
  exists js, h'. split; [done|].
  apply (jobs_settled (H := posix_paths) (H0 := lcg_prng)
           (H1 := even_seed_backend) small_config (Some "complete") 0%nat h'
           js Hrun).
Defined.

(** [jobs()] on [small_config] from the heap 5 allocates the objects 5 to
    32: six algorithm jobs, two selector jobs of [ALL] with three dependencies
    each, four of [RAN2] with two each, and two baseline jobs. *)
Lemma jobs_objects_small :
  exists js,
    jobs (H := posix_paths) (H0 := lcg_prng) (H1 := even_seed_backend)
      (Benchmark_init (H := posix_paths) (Some small_config)) None 5%nat
    = Ok (js, 33%nat)
    /\ flat_map job_objects js = seq 5 28.
Proof.
  destruct (jobs (H := posix_paths) (H0 := lcg_prng)
              (H1 := even_seed_backend)
              (Benchmark_init (H := posix_paths) (Some small_config)) None
              5%nat)
    as [[js h']|e] eqn:Hrun; [|vm_compute in Hrun; discriminate].
  assert (Hh : h' = 33%nat) by (vm_compute in Hrun; by inversion Hrun).
  subst h'. exists js. split; [done|].
  destruct (jobs_objects (H := posix_paths) (H0 := lcg_prng)
              (H1 := even_seed_backend) small_config 5%nat 33%nat js Hrun)
    as (_ & Hobjs & _).
  exact Hobjs.
Defined.

(** [bare_random_selector] lacks [n], [selection_seeds] and [name]: the
    first key read is [n]. *)
Lemma selector_jobs_n_random_key_errors_bare :
  selector_jobs_n_random (H := posix_paths) (H0 := lcg_prng)
    (Benchmark_init (H := posix_paths) (Some small_config))
    bare_random_selector 0%nat
  = Raise (KeyError "n").
Proof.
  destruct (selector_jobs_n_random_key_errors (H := posix_paths)
              (H0 := lcg_prng) small_config bare_random_selector 0%nat)
    as (Hn & _).
  apply Hn. reflexivity.
Defined.
